(** * L5 type checker: type expressions, type environments, typing rules

    A shallow embedding of the type checker of L5 ([L5-typecheck.ts]) and of
    its type environments ([TEnv.ts]): the typing rules of expressions, the
    sequence typer used for programs, and [combineEnvs].

    The checker imports the type-expression module, the AST module, the
    value module and the shared [Result] helpers.  What it uses of them is
    modelled here from the specification of the checker; each such
    definition says so in its doc comment. *)

From Stdlib Require Import List String Ascii ZArith Bool Lia.
Import ListNotations.
Open Scope string_scope.
Open Scope list_scope.

Set Warnings "-register-all".

(* ================================================================= *)
(** ** Type expressions *)

(** Modelled from the spec: the type declaration [TExp] of the
    type-expression module.  Section 3: the nullary shapes [Num], [Bool],
    [Str], [Void] and the empty-parameter marker, a named type variable, a
    procedure type and a pair type. *)
Inductive TExp : Type :=
  | NumTExp
  | BoolTExp
  | StrTExp
  | VoidTExp
  | EmptyTupleTExp
  | TVar (var : string)
  | ProcTExp (paramTEs : list TExp) (returnTE : TExp)
  | PairTExp (first : TExp) (second : TExp).

Definition makeNumTExp := NumTExp.
Definition makeBoolTExp := BoolTExp.
Definition makeStrTExp := StrTExp.
Definition makeVoidTExp := VoidTExp.
Definition makeEmptyTupleTExp := EmptyTupleTExp.
Definition makeTVar (v : string) := TVar v.
Definition makeProcTExp (params : list TExp) (ret : TExp) := ProcTExp params ret.
Definition makePairTExp (a b : TExp) := PairTExp a b.

Definition isProcTExp (t : TExp) : bool :=
  match t with ProcTExp _ _ => true | _ => false end.
Definition isPairTExp (t : TExp) : bool :=
  match t with PairTExp _ _ => true | _ => false end.

(** Induction over [TExp] that also gives the hypothesis for every parameter
    type of a procedure type. *)
Section TExpInd.
Variable P : TExp -> Prop.
Hypothesis HNum : P NumTExp.
Hypothesis HBool : P BoolTExp.
Hypothesis HStr : P StrTExp.
Hypothesis HVoid : P VoidTExp.
Hypothesis HEmpty : P EmptyTupleTExp.
Hypothesis HTVar : forall v, P (TVar v).
Hypothesis HProc : forall ps r, Forall P ps -> P r -> P (ProcTExp ps r).
Hypothesis HPair : forall a b, P a -> P b -> P (PairTExp a b).

Fixpoint TExp_nested_ind (t : TExp) : P t :=
  match t with
  | NumTExp => HNum
  | BoolTExp => HBool
  | StrTExp => HStr
  | VoidTExp => HVoid
  | EmptyTupleTExp => HEmpty
  | TVar v => HTVar v
  | ProcTExp ps r =>
      HProc ps r
            ((fix all (l : list TExp) : Forall P l :=
                match l with
                | [] => Forall_nil P
                | x :: l' => Forall_cons x (TExp_nested_ind x) (all l')
                end) ps)
            (TExp_nested_ind r)
  | PairTExp a b => HPair a b (TExp_nested_ind a) (TExp_nested_ind b)
  end.
End TExpInd.

(** [equals] of ramda on two type expressions: deep structural equality
    (section 3: "TExp equality is deep structural equality over this variant
    tree"). *)
Fixpoint equals (te1 te2 : TExp) {struct te1} : bool :=
  match te1, te2 with
  | NumTExp, NumTExp => true
  | BoolTExp, BoolTExp => true
  | StrTExp, StrTExp => true
  | VoidTExp, VoidTExp => true
  | EmptyTupleTExp, EmptyTupleTExp => true
  | TVar a, TVar b => String.eqb a b
  | ProcTExp ps1 r1, ProcTExp ps2 r2 =>
      (fix eqs (l1 l2 : list TExp) {struct l1} : bool :=
         match l1, l2 with
         | [], [] => true
         | x :: l1', y :: l2' => equals x y && eqs l1' l2'
         | _, _ => false
         end) ps1 ps2 && equals r1 r2
  | PairTExp a1 b1, PairTExp a2 b2 => equals a1 a2 && equals b1 b2
  | _, _ => false
  end.

(** Modelled from the spec: [isContainedTvar] of the type-expression module,
    used by [makeNewEnv].  Section 4.2: the type expression "syntactically
    contains that same variable name as a [TVar]". *)
Fixpoint isContainedTvar (name : string) (te : TExp) : bool :=
  match te with
  | TVar v => String.eqb v name
  | ProcTExp ps r => existsb (isContainedTvar name) ps || isContainedTvar name r
  | PairTExp a b => isContainedTvar name a || isContainedTvar name b
  | _ => false
  end.

(** The names of the type variables occurring in a type expression, left to
    right. *)
Fixpoint tvarNames (te : TExp) : list string :=
  match te with
  | TVar v => [v]
  | ProcTExp ps r => flat_map tvarNames ps ++ tvarNames r
  | PairTExp a b => tvarNames a ++ tvarNames b
  | _ => []
  end.

(* ================================================================= *)
(** ** Abstract syntax *)

(** Modelled from the spec: the quoted-data values of the value module
    (section 1: numbers, booleans, strings, symbols, the empty list and
    binary compound cells).  The checker only classifies them; the payload
    of a number is never inspected. *)
Inductive SExpValue : Type :=
  | SNumber (n : Z)
  | SBoolean (b : bool)
  | SString (s : string)
  | SymbolSExp (val : string)
  | EmptySExp
  | CompoundSExp (val1 val2 : SExpValue).

Definition isSymbolSExp (v : SExpValue) : bool :=
  match v with SymbolSExp _ => true | _ => false end.
Definition isEmptySExp (v : SExpValue) : bool :=
  match v with EmptySExp => true | _ => false end.
Definition isCompoundSExp (v : SExpValue) : bool :=
  match v with CompoundSExp _ _ => true | _ => false end.

(** A variable declaration [(var : texp)]. *)
Record VarDecl : Type := makeVarDecl { var : string; texp : TExp }.

(** Modelled from the spec: the AST node variants of section 3.  A binding
    of [let] and [letrec] is a declared variable with its value
    expression. *)
Inductive Exp : Type :=
  | NumExp (val : Z)
  | BoolExp (val : bool)
  | StrExp (val : string)
  | PrimOp (op : string)
  | VarRef (v : string)
  | IfExp (test then_ alt : Exp)
  | ProcExp (args : list VarDecl) (body : list Exp) (returnTE : TExp)
  | AppExp (rator : Exp) (rands : list Exp)
  | LetExp (bindings : list (VarDecl * Exp)) (body : list Exp)
  | LetrecExp (bindings : list (VarDecl * Exp)) (body : list Exp)
  | DefineExp (vd : VarDecl) (val : Exp)
  | LitExp (val : SExpValue).

Definition Binding : Type := (VarDecl * Exp)%type.

(** A program is an ordered sequence of top-level forms; [Parsed] is what
    the source's [typeofExp] accepts: an expression or a program. *)
Record Program : Type := makeProgram { exps : list Exp }.

Inductive Parsed : Type :=
  | PExp (e : Exp)
  | PProgram (p : Program).

Definition isDefineExp (e : Exp) : bool :=
  match e with DefineExp _ _ => true | _ => false end.
Definition isProcExp (e : Exp) : bool :=
  match e with ProcExp _ _ _ => true | _ => false end.
Definition isPrimOp (e : Exp) : bool :=
  match e with PrimOp _ => true | _ => false end.

(** Fields of a procedure expression.  They are read only from expressions
    that passed [isProcExp]. *)
Definition procArgs (e : Exp) : list VarDecl :=
  match e with ProcExp args _ _ => args | _ => [] end.
Definition procBody (e : Exp) : list Exp :=
  match e with ProcExp _ body _ => body | _ => [] end.
Definition procReturnTE (e : Exp) : TExp :=
  match e with ProcExp _ _ r => r | _ => VoidTExp end.

(* ================================================================= *)
(** ** The result channel *)

(** What a failure carries.  The checker builds some of its messages with
    the AST unparser and [format], which live in the AST module; those
    failures keep the pieces the text is rendered from.  [Msg] is a message
    the checker writes out itself. *)
Inductive Error : Type :=
  | Msg (message : string)
  (* `Incompatible types: ${te1} and ${te2} in ${exp}` *)
  | IncompatibleTypes (te1 te2 : string) (exp : Exp)
  (* `Application of non-procedure: ${rator} in ${exp}` *)
  | NonProcedure (rator : string) (exp : Exp)
  (* `Wrong parameter numbers passed to proc: ${exp}` *)
  | WrongParameterNumbers (exp : Exp)
  (* `letrec - only support binding of procedures - ${format(exp)}` *)
  | LetrecOnlyProcedures (exp : Exp).

(** Modelled from the spec: the two-variant outcome type of the shared
    result module and its combinators (section 1). *)
Inductive Result (A : Type) : Type :=
  | Ok (value : A)
  | Failure (message : Error).
Arguments Ok {A} value.
Arguments Failure {A} message.

Definition makeOk {A} (a : A) : Result A := Ok a.
Definition makeFailure {A} (e : Error) : Result A := Failure e.

Definition isOk {A} (r : Result A) : bool :=
  match r with Ok _ => true | Failure _ => false end.
Definition isFailure {A} (r : Result A) : bool :=
  match r with Ok _ => false | Failure _ => true end.

(** Sequencing: the first failure is returned as it is. *)
Definition bind {A B} (r : Result A) (f : A -> Result B) : Result B :=
  match r with
  | Ok a => f a
  | Failure e => Failure e
  end.

(** Modelled from the spec: list-wise combination, left to right, stopping
    at the first failure and at the end of the shorter list. *)
Definition zipWithResult {A B C} (f : A -> B -> Result C)
  : list A -> list B -> Result (list C) :=
  fix go (xs : list A) (ys : list B) {struct xs} : Result (list C) :=
    match xs, ys with
    | x :: xs', y :: ys' =>
        bind (f x y) (fun fxy =>
          bind (go xs' ys') (fun fxys => makeOk (fxy :: fxys)))
    | _, _ => makeOk []
    end.

(** [zipWith] of ramda. *)
Definition zipWith {A B C} (f : A -> B -> C) : list A -> list B -> list C :=
  fix go (xs : list A) (ys : list B) {struct xs} : list C :=
    match xs, ys with
    | x :: xs', y :: ys' => f x y :: go xs' ys'
    | _, _ => []
    end.

(** [allT] of the shared list module: every element passes the test. *)
Definition allT {A} (isT : A -> bool) (xs : list A) : bool := forallb isT xs.

(* ================================================================= *)
(** ** Type environments *)

Inductive TEnv : Type :=
  | EmptyTEnv
  | ExtendTEnv (vars : list string) (texps : list TExp) (tenv : TEnv).

Definition makeEmptyTEnv : TEnv := EmptyTEnv.
Definition makeExtendTEnv (vars : list string) (texps : list TExp) (tenv : TEnv)
  : TEnv := ExtendTEnv vars texps tenv.
Definition isEmptyTEnv (x : TEnv) : bool :=
  match x with EmptyTEnv => true | _ => false end.
Definition isExtendTEnv (x : TEnv) : bool :=
  match x with ExtendTEnv _ _ _ => true | _ => false end.

(** [vars.indexOf(v)]: the first position of [v]; [None] stands for -1. *)
Fixpoint indexOf (v : string) (vars : list string) : option nat :=
  match vars with
  | [] => None
  | x :: vars' =>
      if String.eqb x v then Some 0
      else match indexOf v vars' with
           | Some pos => Some (S pos)
           | None => None
           end
  end.

(** [texps[pos]].  A frame whose two sequences have the same length (the
    invariant of section 3, kept by every frame the checker builds) is never
    read out of range; [None] is the [undefined] JavaScript gives there. *)
Definition arrayAt (texps : list TExp) (pos : nat) : option TExp :=
  nth_error texps pos.

(** Every frame has as many types as names. *)
Fixpoint wfTEnv (tenv : TEnv) : bool :=
  match tenv with
  | EmptyTEnv => true
  | ExtendTEnv vars texps tenv' =>
      Nat.eqb (List.length vars) (List.length texps) && wfTEnv tenv'
  end.

(** [applyTEnv] with [applyExtendTEnv] unfolded in place ([applyTEnv_eq]
    gives the source's form back).  An out-of-range read, which a
    well-formed frame excludes, is reported as a failure. *)
Fixpoint applyTEnv (tenv : TEnv) (v : string) : Result TExp :=
  match tenv with
  | EmptyTEnv => makeFailure (Msg ("Type Variable not found " ++ v))
  | ExtendTEnv vars texps tenv' =>
      match indexOf v vars with
      | None => applyTEnv tenv' v
      | Some pos =>
          match arrayAt texps pos with
          | Some te => makeOk te
          | None => makeFailure (Msg "undefined")
          end
      end
  end.

Definition applyExtendTEnv (texps : list TExp) (tenv : TEnv) (v : string)
  (pos : option nat) : Result TExp :=
  match pos with
  | None => applyTEnv tenv v
  | Some pos =>
      match arrayAt texps pos with
      | Some te => makeOk te
      | None => makeFailure (Msg "undefined")
      end
  end.

(** [makeNewEnv] takes two extended environments: the first is passed on
    whole, of the second only the two sequences of its own frame are read.
    [some] pairs each name with the type at its index, and [diffTexps] reads
    the type at the first index of each kept name (an [undefined] read,
    which a well-formed frame excludes, contributes nothing here). *)
Definition makeNewEnv (firstEnv : TEnv) (secondEnvVars : list string)
  (secondEnvTexps : list TExp) : Result TEnv :=
  let selfDefined :=
    existsb (fun vt => isContainedTvar (fst vt) (snd vt))
            (combine secondEnvVars secondEnvTexps) in
  if selfDefined then makeFailure (Msg "Variable is defined recursivly")
  else
    let isNotInFirst (variable : string) : bool :=
      isFailure (applyTEnv firstEnv variable) in
    let diffVars := filter isNotInFirst secondEnvVars in
    let diffTexps :=
      flat_map (fun v =>
                  match indexOf v secondEnvVars with
                  | Some pos =>
                      match arrayAt secondEnvTexps pos with
                      | Some te => [te]
                      | None => []
                      end
                  | None => []
                  end) diffVars in
    makeOk (makeExtendTEnv diffVars diffTexps firstEnv).

Definition combineEnvs (firstEnv secondEnv : TEnv) : Result TEnv :=
  match firstEnv, secondEnv with
  | EmptyTEnv, _ => makeOk secondEnv
  | _, EmptyTEnv => makeOk firstEnv
  | ExtendTEnv _ _ _, ExtendTEnv vars texps _ => makeNewEnv firstEnv vars texps
  end.

(* ================================================================= *)
(** ** Surface syntax of type expressions *)

(** The reader's symbolic-expression tree, as far as type annotations need
    it: an atom or a parenthesised sequence. *)
Inductive Sexp : Type :=
  | SAtom (s : string)
  | SList (l : list Sexp).

Definition flushToken (cur : string) : list string :=
  if String.eqb cur "" then [] else [cur].

(** Splits a text into parentheses and atoms separated by blanks. *)
Fixpoint tokenize (s : string) (cur : string) : list string :=
  match s with
  | EmptyString => flushToken cur
  | String c s' =>
      if Ascii.eqb c "("%char then flushToken cur ++ "(" :: tokenize s' ""
      else if Ascii.eqb c ")"%char then flushToken cur ++ ")" :: tokenize s' ""
      else if Ascii.eqb c " "%char then flushToken cur ++ tokenize s' ""
      else tokenize s' (cur ++ String c "")
  end.

(** Builds the trees of a token sequence; [cur] holds the elements of the
    innermost open parenthesis in reverse, [stack] those of the enclosing
    ones. *)
Fixpoint readSexps (toks : list string) (cur : list Sexp)
  (stack : list (list Sexp)) : option (list Sexp) :=
  match toks with
  | [] => match stack with [] => Some (rev cur) | _ :: _ => None end
  | tok :: toks' =>
      if String.eqb tok "(" then readSexps toks' [] (cur :: stack)
      else if String.eqb tok ")" then
        match stack with
        | [] => None
        | parent :: stack' => readSexps toks' (SList (rev cur) :: parent) stack'
        end
      else readSexps toks' (SAtom tok :: cur) stack
  end.

Definition isUpperLeading (s : string) : bool :=
  match s with
  | EmptyString => false
  | String c _ =>
      let n := nat_of_ascii c in Nat.leb 65 n && Nat.leb n 90
  end.

(** Modelled from the spec: [parseTExp] of the type-expression module, on
    the annotation syntax of section 6: [number], [boolean], [string],
    [void], an identifier with a leading capital as a type variable,
    [(T1 * ... * Tn -> R)] for a procedure type with [Empty] standing for no
    parameter, and [(Pair T1 T2)]. *)
Fixpoint parseTExp (s : Sexp) : Result TExp :=
  match s with
  | SAtom a =>
      if String.eqb a "number" then makeOk makeNumTExp
      else if String.eqb a "boolean" then makeOk makeBoolTExp
      else if String.eqb a "void" then makeOk makeVoidTExp
      else if String.eqb a "string" then makeOk makeStrTExp
      else if String.eqb a "Empty" then makeOk makeEmptyTupleTExp
      else if isUpperLeading a then makeOk (makeTVar a)
      else makeFailure (Msg ("Unexpected TExp - " ++ a))
  | SList [SAtom "Pair"; a; b] =>
      bind (parseTExp a) (fun ta =>
        bind (parseTExp b) (fun tb => makeOk (makePairTExp ta tb)))
  | SList [SAtom "Empty"; SAtom "->"; r] =>
      bind (parseTExp r) (fun tr => makeOk (makeProcTExp [] tr))
  | SList l =>
      bind ((fix params (l : list Sexp) : Result (list TExp * TExp) :=
               match l with
               | x :: SAtom op :: rest =>
                   if String.eqb op "*" then
                     bind (parseTExp x) (fun t =>
                       bind (params rest) (fun psr =>
                         makeOk (t :: fst psr, snd psr)))
                   else if String.eqb op "->" then
                     match rest with
                     | [r] =>
                         bind (parseTExp x) (fun t =>
                           bind (parseTExp r) (fun tr => makeOk ([t], tr)))
                     | _ => makeFailure (Msg "Only one return type allowed")
                     end
                   else makeFailure (Msg "Unexpected TExp")
               | _ => makeFailure (Msg "Procedure type expression without ->")
               end) l)
           (fun psr => makeOk (makeProcTExp (fst psr) (snd psr)))
  end.

(** [parseTE]: a type expression from its text. *)
Definition parseTE (t : string) : Result TExp :=
  match readSexps (tokenize t "") [] [] with
  | Some [s] => parseTExp s
  | _ => makeFailure (Msg ("Unexpected TExp - " ++ t))
  end.

Fixpoint joinWith (sep : string) (l : list string) : string :=
  match l with
  | [] => ""
  | [x] => x
  | x :: l' => x ++ sep ++ joinWith sep l'
  end.

(** The text of a type expression in the annotation syntax. *)
Fixpoint texpText (te : TExp) : string :=
  match te with
  | NumTExp => "number"
  | BoolTExp => "boolean"
  | StrTExp => "string"
  | VoidTExp => "void"
  | EmptyTupleTExp => "Empty"
  | TVar v => v
  | ProcTExp ps r =>
      "(" ++ match ps with
             | [] => "Empty"
             | _ => joinWith " * " (map texpText ps)
             end ++ " -> " ++ texpText r ++ ")"
  | PairTExp a b => "(Pair " ++ texpText a ++ " " ++ texpText b ++ ")"
  end.

(** Modelled from the spec: [unparseTExp] of the type-expression module,
    the rendering that round-trips with the annotation syntax (section
    4.1). *)
Definition unparseTExp (te : TExp) : Result string := makeOk (texpText te).

(* ================================================================= *)
(** ** The expression type checker *)

(** Check that two type expressions are equal; [exp] only documents the
    failure. *)
Definition checkEqualType (te1 te2 : TExp) (exp : Exp) : Result bool :=
  if equals te1 te2 then makeOk true
  else
    bind (unparseTExp te1) (fun te1 =>
      bind (unparseTExp te2) (fun te2 =>
        makeFailure (IncompatibleTypes te1 te2 exp))).

(** Classification of a quoted value.  [typeofCompoundSExp] is unfolded in
    the compound case ([typeofSExpLiteral_compound] gives it back); the
    source's last branch, for a value of no known kind, has no counterpart
    in [SExpValue]. *)
Fixpoint typeofSExpLiteral (val : SExpValue) : Result TExp :=
  match val with
  | SNumber _ => makeOk makeNumTExp
  | SBoolean _ => makeOk makeBoolTExp
  | SString _ => makeOk makeStrTExp
  | SymbolSExp _ => makeOk (makeTVar "literal")
  | EmptySExp => makeOk makeEmptyTupleTExp
  | CompoundSExp val1 val2 =>
      bind (typeofSExpLiteral val1) (fun leftTE =>
        bind (typeofSExpLiteral val2) (fun rightTE =>
          makeOk (makePairTExp leftTE rightTE)))
  end.

Definition typeofCompoundSExp (val1 val2 : SExpValue) : Result TExp :=
  bind (typeofSExpLiteral val1) (fun leftTE =>
    bind (typeofSExpLiteral val2) (fun rightTE =>
      makeOk (makePairTExp leftTE rightTE))).

Definition typeofLit (val : SExpValue) : Result TExp :=
  match val with
  | CompoundSExp val1 val2 => typeofCompoundSExp val1 val2
  | _ => makeOk (makeTVar "literal")
  end.

Definition typeofNum : TExp := makeNumTExp.
Definition typeofBool : TExp := makeBoolTExp.
Definition typeofStr : TExp := makeStrTExp.

Definition numOpTExp := parseTE "(number * number -> number)".
Definition numCompTExp := parseTE "(number * number -> boolean)".
Definition boolOpTExp := parseTE "(boolean * boolean -> boolean)".

Definition typeofPrim (op : string) : Result TExp :=
  if String.eqb op "+" then numOpTExp
  else if String.eqb op "-" then numOpTExp
  else if String.eqb op "*" then numOpTExp
  else if String.eqb op "/" then numOpTExp
  else if String.eqb op "and" then boolOpTExp
  else if String.eqb op "or" then boolOpTExp
  else if String.eqb op ">" then numCompTExp
  else if String.eqb op "<" then numCompTExp
  else if String.eqb op "=" then numCompTExp
  else if String.eqb op "number?" then parseTE "(T -> boolean)"
  else if String.eqb op "boolean?" then parseTE "(T -> boolean)"
  else if String.eqb op "string?" then parseTE "(T -> boolean)"
  else if String.eqb op "list?" then parseTE "(T -> boolean)"
  else if String.eqb op "pair?" then parseTE "(T -> boolean)"
  else if String.eqb op "symbol?" then parseTE "(T -> boolean)"
  else if String.eqb op "not" then parseTE "(boolean -> boolean)"
  else if String.eqb op "eq?" then parseTE "(T1 * T2 -> boolean)"
  else if String.eqb op "string=?" then parseTE "(T1 * T2 -> boolean)"
  else if String.eqb op "display" then parseTE "(T -> void)"
  else if String.eqb op "newline" then parseTE "(Empty -> void)"
  else if String.eqb op "cons" then parseTE "(T1 * T2 -> (Pair T1 T2))"
  else if String.eqb op "car" then parseTE "((Pair T1 T2) -> T1)"
  else if String.eqb op "cdr" then parseTE "((Pair T1 T2) -> T2)"
  else makeFailure (Msg "Operator not supported").

(** The rules below are written over the checker [tc] used for
    sub-expressions; [typeofExp] ties the knot. *)
Section Rules.
Variable tc : Exp -> TEnv -> Result TExp.

Definition typeofExpsWith : list Exp -> TEnv -> Result TExp :=
  fix typeofExps (exps : list Exp) (tenv : TEnv) {struct exps} :=
    match exps with
    | [] => makeFailure (Msg "Unexpected empty list of expressions")
    | first :: rest =>
        match rest with
        | [] => tc first tenv
        | _ :: _ => bind (tc first tenv) (fun _ => typeofExps rest tenv)
        end
    end.

Definition typeofIfWith (test then_ alt : Exp) (tenv : TEnv) : Result TExp :=
  let ifExp := IfExp test then_ alt in
  let testTE := tc test tenv in
  let thenTE := tc then_ tenv in
  let altTE := tc alt tenv in
  let constraint1 :=
    bind testTE (fun testTE => checkEqualType testTE makeBoolTExp ifExp) in
  let constraint2 :=
    bind thenTE (fun thenTE =>
      bind altTE (fun altTE => checkEqualType thenTE altTE ifExp)) in
  bind constraint1 (fun _c1 => bind constraint2 (fun _c2 => thenTE)).

Definition typeofProcWith (args : list VarDecl) (body : list Exp)
  (returnTE : TExp) (tenv : TEnv) : Result TExp :=
  let proc := ProcExp args body returnTE in
  let argsTEs := map texp args in
  let extTEnv := makeExtendTEnv (map var args) argsTEs tenv in
  let constraint1 :=
    bind (typeofExpsWith body extTEnv) (fun body =>
      checkEqualType body returnTE proc) in
  bind constraint1 (fun _ => makeOk (makeProcTExp argsTEs returnTE)).

(** The generic rule of an application. *)
Definition typeofAppGenericWith (rator : Exp) (rands : list Exp)
  (tenv : TEnv) : Result TExp :=
  let app := AppExp rator rands in
  bind (tc rator tenv) (fun ratorTE =>
    match ratorTE with
    | ProcTExp paramTEs returnTE =>
        if negb (Nat.eqb (List.length rands) (List.length paramTEs)) then
          makeFailure (WrongParameterNumbers app)
        else
          let constraints :=
            zipWithResult (fun rand trand =>
              bind (tc rand tenv) (fun typeOfRand =>
                checkEqualType typeOfRand trand app))
              rands paramTEs in
          bind constraints (fun _ => makeOk returnTE)
    | _ =>
        bind (unparseTExp ratorTE) (fun rator =>
          makeFailure (NonProcedure rator app))
    end).

Definition typeofAppWith (rator : Exp) (rands : list Exp) (tenv : TEnv)
  : Result TExp :=
  match rator with
  | PrimOp op =>
      if String.eqb op "car" then
        match rands with
        | [rand0] =>
            bind (tc rand0 tenv) (fun pair =>
              match pair with
              | PairTExp first _ => makeOk first
              | _ => makeFailure (Msg "cdr expected a pair")
              end)
        | _ => makeFailure (Msg "cdr expects exactly 1 argument")
        end
      else if String.eqb op "cdr" then
        match rands with
        | [rand0] =>
            bind (tc rand0 tenv) (fun pair =>
              match pair with
              | PairTExp _ second => makeOk second
              | _ => makeFailure (Msg "cdr expected a pair")
              end)
        | _ => makeFailure (Msg "cdr expects exactly 1 argument")
        end
      else if String.eqb op "cons" then
        match rands with
        | [rand0; rand1] =>
            bind (tc rand0 tenv) (fun t1 =>
              bind (tc rand1 tenv) (fun t2 =>
                makeOk (makePairTExp t1 t2)))
        | _ => makeFailure (Msg "cons expects exactly 2 arguments")
        end
      else typeofAppGenericWith rator rands tenv
  | _ => typeofAppGenericWith rator rands tenv
  end.

(** [zipWithResult] over the declared types and the values of the
    bindings, walking the bindings themselves. *)
Definition letConstraintsWith (exp : Exp) (tenv : TEnv)
  : list (VarDecl * Exp) -> Result (list bool) :=
  fix go (bs : list (VarDecl * Exp)) : Result (list bool) :=
    match bs with
    | [] => makeOk []
    | b :: bs' =>
        bind (bind (tc (snd b) tenv) (fun typeOfVal =>
                checkEqualType (texp (fst b)) typeOfVal exp))
             (fun c => bind (go bs') (fun cs => makeOk (c :: cs)))
    end.

Definition typeofLetWith (bindings : list (VarDecl * Exp)) (body : list Exp)
  (tenv : TEnv) : Result TExp :=
  let exp := LetExp bindings body in
  let vars := map (fun b => var (fst b)) bindings in
  let varTEs := map (fun b => texp (fst b)) bindings in
  let constraints := letConstraintsWith exp tenv bindings in
  bind constraints (fun _ =>
    typeofExpsWith body (makeExtendTEnv vars varTEs tenv)).

(** [zipWithResult] of [typeofExps] over the bodies of the bound
    procedures and their environments, walking the bindings themselves. *)
Definition letrecTypesWith (tenvBody : TEnv)
  : list (VarDecl * Exp) -> Result (list TExp) :=
  fix go (bs : list (VarDecl * Exp)) : Result (list TExp) :=
    match bs with
    | [] => makeOk []
    | b :: bs' =>
        let tenvI (params : list VarDecl) :=
          makeExtendTEnv (map var params) (map texp params) tenvBody in
        bind (match snd b with
              | ProcExp params bodyI _ => typeofExpsWith bodyI (tenvI params)
              | _ => typeofExpsWith [] (tenvI [])
              end)
             (fun t => bind (go bs') (fun ts => makeOk (t :: ts)))
    end.

Definition typeofLetrecWith (bindings : list (VarDecl * Exp))
  (body : list Exp) (tenv : TEnv) : Result TExp :=
  let exp := LetrecExp bindings body in
  let ps := map (fun b => var (fst b)) bindings in
  let procs := map (fun b => snd b) bindings in
  if negb (allT isProcExp procs) then
    makeFailure (LetrecOnlyProcedures exp)
  else
    let paramss := map procArgs procs in
    let tijs := map (fun params => map texp params) paramss in
    let tis := map procReturnTE procs in
    let tenvBody :=
      makeExtendTEnv ps (zipWith makeProcTExp tijs tis) tenv in
    let types := letrecTypesWith tenvBody bindings in
    let constraints :=
      bind types (fun types =>
        zipWithResult (fun typeI ti => checkEqualType typeI ti exp)
                      types tis) in
    bind constraints (fun _ => typeofExpsWith body tenvBody).

Definition typeofDefineWith (vd : VarDecl) (val : Exp) (tenv : TEnv)
  : Result TExp :=
  let exp := DefineExp vd val in
  let valTE := tc val tenv in
  let constraint :=
    bind valTE (fun valTE => checkEqualType (texp vd) valTE exp) in
  bind constraint (fun _ => makeOk makeVoidTExp).
End Rules.

(** The type of an expression.  The source's [typeofExp] also accepts a
    program; that case is [typeofParsed] below. *)
Fixpoint typeofExp (exp : Exp) (tenv : TEnv) {struct exp} : Result TExp :=
  match exp with
  | NumExp _ => makeOk typeofNum
  | BoolExp _ => makeOk typeofBool
  | StrExp _ => makeOk typeofStr
  | PrimOp op => typeofPrim op
  | VarRef v => applyTEnv tenv v
  | IfExp test then_ alt => typeofIfWith typeofExp test then_ alt tenv
  | ProcExp args body returnTE => typeofProcWith typeofExp args body returnTE tenv
  | AppExp rator rands => typeofAppWith typeofExp rator rands tenv
  | LetExp bindings body => typeofLetWith typeofExp bindings body tenv
  | LetrecExp bindings body => typeofLetrecWith typeofExp bindings body tenv
  | DefineExp vd val => typeofDefineWith typeofExp vd val tenv
  | LitExp val => typeofLit val
  end.

Definition typeofExps : list Exp -> TEnv -> Result TExp :=
  typeofExpsWith typeofExp.
Definition typeofIf := typeofIfWith typeofExp.
Definition typeofProc := typeofProcWith typeofExp.
Definition typeofApp := typeofAppWith typeofExp.
Definition typeofDefine := typeofDefineWith typeofExp.

(** [typeofLet] and [typeofLetrec] in the source's own terms: maps over the
    bindings and [zipWithResult] over the mapped sequences. *)
Definition typeofLet (bindings : list (VarDecl * Exp)) (body : list Exp)
  (tenv : TEnv) : Result TExp :=
  let exp := LetExp bindings body in
  let vars := map (fun b => var (fst b)) bindings in
  let vals := map (fun b => snd b) bindings in
  let varTEs := map (fun b => texp (fst b)) bindings in
  let constraints :=
    zipWithResult (fun varTE val =>
      bind (typeofExp val tenv) (fun typeOfVal =>
        checkEqualType varTE typeOfVal exp))
      varTEs vals in
  bind constraints (fun _ =>
    typeofExps body (makeExtendTEnv vars varTEs tenv)).

Definition typeofLetrec (bindings : list (VarDecl * Exp)) (body : list Exp)
  (tenv : TEnv) : Result TExp :=
  let exp := LetrecExp bindings body in
  let ps := map (fun b => var (fst b)) bindings in
  let procs := map (fun b => snd b) bindings in
  if negb (allT isProcExp procs) then
    makeFailure (LetrecOnlyProcedures exp)
  else
    let paramss := map procArgs procs in
    let bodies := map procBody procs in
    let tijs := map (fun params => map texp params) paramss in
    let tis := map procReturnTE procs in
    let tenvBody := makeExtendTEnv ps (zipWith makeProcTExp tijs tis) tenv in
    let tenvIs :=
      zipWith (fun params tij => makeExtendTEnv (map var params) tij tenvBody)
              paramss tijs in
    let types :=
      zipWithResult (fun bodyI tenvI => typeofExps bodyI tenvI) bodies tenvIs in
    let constraints :=
      bind types (fun types =>
        zipWithResult (fun typeI ti => checkEqualType typeI ti exp) types tis) in
    bind constraints (fun _ => typeofExps body tenvBody).

(* ================================================================= *)
(** ** The sequence typer *)

(** [typeofDefineExps] and [typeOfFirst] over the typer [seqRest] of the
    remaining forms; [typeOfSequence] ties the knot. *)
Definition typeofDefineExpsWith (seqRest : TEnv -> Result TExp)
  (vd : VarDecl) (val : Exp) (tenv : TEnv) : Result TExp :=
  let exp := DefineExp vd val in
  let valTE := typeofExp val tenv in
  let constraint :=
    bind valTE (fun valTE => checkEqualType (texp vd) valTE exp) in
  let newEnv := makeExtendTEnv [var vd] [texp vd] tenv in
  bind constraint (fun _ =>
    bind (combineEnvs tenv newEnv) (fun env => seqRest env)).

Definition typeOfFirstWith (seqRest : TEnv -> Result TExp)
  (first : Exp) (rest : list Exp) (env : TEnv) : Result TExp :=
  match first with
  | DefineExp vd val => typeofDefineExpsWith seqRest vd val env
  | _ =>
      match rest with
      | [] => typeofExp first env
      | _ :: _ => bind (typeofExp first env) (fun _ => seqRest env)
      end
  end.

Fixpoint typeOfSequence (seq : list Exp) (env : TEnv) {struct seq}
  : Result TExp :=
  match seq with
  | first :: rest => typeOfFirstWith (typeOfSequence rest) first rest env
  | [] => makeFailure (Msg "Empty sequence")
  end.

Definition typeOfFirst (first : Exp) (rest : list Exp) (env : TEnv)
  : Result TExp :=
  typeOfFirstWith (typeOfSequence rest) first rest env.

Definition typeofDefineExps (vd : VarDecl) (val : Exp) (rest : list Exp)
  (tenv : TEnv) : Result TExp :=
  typeofDefineExpsWith (typeOfSequence rest) vd val tenv.

Definition typeofProgram (exp : Program) (tenv : TEnv) : Result TExp :=
  typeOfSequence (exps exp) tenv.

(** The source's [typeofExp], on an expression or a program. *)
Definition typeofParsed (exp : Parsed) (tenv : TEnv) : Result TExp :=
  match exp with
  | PExp e => typeofExp e tenv
  | PProgram prog => typeofProgram prog tenv
  end.

(* ================================================================= *)
(** ** Entry points *)

(** The reader [p] and the AST builders [parseL5Exp] and [parseL5Program]
    are external collaborators (section 1); the entry points are stated over
    any such three. *)
Section EntryPoints.
Variable p : string -> Result Sexp.
Variable parseL5Exp : Sexp -> Result Exp.
Variable parseL5Program : Sexp -> Result Program.

Definition L5typeof (concreteExp : string) : Result string :=
  bind (p concreteExp) (fun x =>
    bind (parseL5Exp x) (fun e =>
      bind (typeofParsed (PExp e) makeEmptyTEnv) unparseTExp)).

Definition L5programTypeof (concreteExp : string) : Result string :=
  bind (p concreteExp) (fun x =>
    bind (parseL5Program x) (fun e =>
      bind (typeofParsed (PProgram e) makeEmptyTEnv) unparseTExp)).
End EntryPoints.

(* ================================================================= *)
(** ** Quoted literals *)

(** The classification of a quoted value in the words of section 4.3:
    numbers, booleans and strings yield [Num], [Bool] and [Str], a symbol
    the type variable ["literal"], the empty value the [Empty] marker, a
    compound value the pair of the classifications of its halves. *)
Fixpoint classifySExp (val : SExpValue) : TExp :=
  match val with
  | SNumber _ => NumTExp
  | SBoolean _ => BoolTExp
  | SString _ => StrTExp
  | SymbolSExp _ => TVar "literal"
  | EmptySExp => EmptyTupleTExp
  | CompoundSExp val1 val2 => PairTExp (classifySExp val1) (classifySExp val2)
  end.

(** A reader for the three texts of the quoted-literal tests, enough to run
    the entry point on them. *)
Definition quoteReader (concreteExp : string) : Result Sexp :=
  makeOk (SAtom concreteExp).

Definition quoteProgram (x : Sexp) : Result Program :=
  match x with
  | SAtom "(L5 '5)" => makeOk (makeProgram [LitExp (SNumber 5)])
  | SAtom "(L5 '(4 . 7))" =>
      makeOk (makeProgram [LitExp (CompoundSExp (SNumber 4) (SNumber 7))])
  | SAtom "(L5 '(#t . 10))" =>
      makeOk (makeProgram [LitExp (CompoundSExp (SBoolean true) (SNumber 10))])
  | _ => makeFailure (Msg "Unexpected program")
  end.

(* ================================================================= *)
(** ** Define and letrec *)

(** The AST of [(define (x : number) 5)] and of the same define with the
    annotation [boolean], behind a reader that knows these two texts. *)
Definition defineReader (concreteExp : string) : Result Sexp :=
  makeOk (SAtom concreteExp).

Definition defineExpOf (x : Sexp) : Result Exp :=
  match x with
  | SAtom "(define (x : number) 5)" =>
      makeOk (DefineExp (makeVarDecl "x" NumTExp) (NumExp 5))
  | SAtom "(define (x : boolean) 5)" =>
      makeOk (DefineExp (makeVarDecl "x" BoolTExp) (NumExp 5))
  | _ => makeFailure (Msg "Unexpected expression")
  end.

(* ================================================================= *)
(** ** Applications *)

(** The operators with a rule of their own in [typeofApp]. *)
Definition isBespokePrim (rator : Exp) : bool :=
  match rator with
  | PrimOp op => String.eqb op "car" || String.eqb op "cdr" || String.eqb op "cons"
  | _ => false
  end.

(* ================================================================= *)
(** ** Polymorphic primitives *)

(** No name occurs in both lists. *)
Definition disjointNames (names1 names2 : list string) : Prop :=
  forall x, In x names1 -> ~ In x names2.

(** The signatures of the polymorphic primitives, as written in
    [typeofPrim]. *)
Definition polymorphicSignatures : list (string * TExp) :=
  [ ("number?", ProcTExp [TVar "T"] BoolTExp);
    ("boolean?", ProcTExp [TVar "T"] BoolTExp);
    ("string?", ProcTExp [TVar "T"] BoolTExp);
    ("list?", ProcTExp [TVar "T"] BoolTExp);
    ("pair?", ProcTExp [TVar "T"] BoolTExp);
    ("symbol?", ProcTExp [TVar "T"] BoolTExp);
    ("eq?", ProcTExp [TVar "T1"; TVar "T2"] BoolTExp);
    ("string=?", ProcTExp [TVar "T1"; TVar "T2"] BoolTExp);
    ("display", ProcTExp [TVar "T"] VoidTExp);
    ("cons", ProcTExp [TVar "T1"; TVar "T2"] (PairTExp (TVar "T1") (TVar "T2")));
    ("car", ProcTExp [PairTExp (TVar "T1") (TVar "T2")] (TVar "T1"));
    ("cdr", ProcTExp [PairTExp (TVar "T1") (TVar "T2")] (TVar "T2")) ].

(* ================================================================= *)
(** ** Merging environments *)

(** The type a frame gives to a name: the type at the first index of the
    name. *)
Definition frameLookup (vars : list string) (texps : list TExp) (v : string)
  : option TExp :=
  match indexOf v vars with
  | Some pos => arrayAt texps pos
  | None => None
  end.

(* ================================================================= *)
(** ** The sequence typer against its description *)

(** The sequence typer in the words of section 4.3: the forms are processed
    left to right, a define met before the end extends the environment of
    the forms after it, every other form is typed and its type dropped
    unless it is the last, the result is the type of the last form, and the
    empty sequence fails. *)
Fixpoint sequenceSpec (seq : list Exp) (env : TEnv) : Result TExp :=
  match seq with
  | [] => makeFailure (Msg "Empty sequence")
  | form :: rest =>
      match rest with
      | [] => typeofExp form env
      | _ :: _ =>
          bind (typeofExp form env) (fun _ =>
            sequenceSpec rest
              match form with
              | DefineExp vd _ => makeExtendTEnv [var vd] [texp vd] env
              | _ => env
              end)
      end
  end.

Fixpoint lastIsDefine (seq : list Exp) : bool :=
  match seq with
  | [] => false
  | form :: rest =>
      match rest with
      | [] => isDefineExp form
      | _ :: _ => lastIsDefine rest
      end
  end.

(** Every define of the sequence meets an environment that is terminal, or
    that does not resolve the defined name while the declared type does not
    contain that name as a type variable. *)
Fixpoint definesFresh (seq : list Exp) (env : TEnv) : bool :=
  match seq with
  | [] => true
  | DefineExp vd _ :: rest =>
      (isEmptyTEnv env ||
       (negb (isContainedTvar (var vd) (texp vd)) &&
        isFailure (applyTEnv env (var vd)))) &&
      definesFresh rest (makeExtendTEnv [var vd] [texp vd] env)
  | _ :: rest => definesFresh rest env
  end.

(** The environment a checked define leaves to the forms after it: the
    environment extended with the defined name when it is terminal or does
    not resolve the name; a frame that adds nothing when it already resolves
    the name, so that the earlier binding stays in force; a failure when it
    is not terminal and the declared type contains the defined name as a
    type variable. *)
Definition defineEnv (vd : VarDecl) (env : TEnv) : Result TEnv :=
  if isEmptyTEnv env then makeOk (makeExtendTEnv [var vd] [texp vd] env)
  else if isContainedTvar (var vd) (texp vd) then
    makeFailure (Msg "Variable is defined recursivly")
  else if isFailure (applyTEnv env (var vd)) then
    makeOk (makeExtendTEnv [var vd] [texp vd] env)
  else makeOk (makeExtendTEnv [] [] env).

(** The description of the sequence typer with [defineEnv] for the
    environment after a define. *)
Fixpoint sequenceAmended (seq : list Exp) (env : TEnv) : Result TExp :=
  match seq with
  | [] => makeFailure (Msg "Empty sequence")
  | form :: rest =>
      match rest with
      | [] => typeofExp form env
      | _ :: _ =>
          bind (typeofExp form env) (fun _ =>
            match form with
            | DefineExp vd _ =>
                bind (defineEnv vd env) (fun env' => sequenceAmended rest env')
            | _ => sequenceAmended rest env
            end)
      end
  end.

(** The program [(L5 (define (x : number) 5) (+ x 1))]. *)
Definition plusProgram : list Exp :=
  [ DefineExp (makeVarDecl "x" NumTExp) (NumExp 5);
    AppExp (PrimOp "+") [VarRef "x"; NumExp 1] ].

(** The program [(L5 (define (x : number) 5) (define (x : boolean) #t) x)]. *)
Definition redefineProgram : list Exp :=
  [ DefineExp (makeVarDecl "x" NumTExp) (NumExp 5);
    DefineExp (makeVarDecl "x" BoolTExp) (BoolExp true);
    VarRef "x" ].

Definition plusReader (concreteExp : string) : Result Sexp :=
  makeOk (SAtom concreteExp).

Definition plusProgramOf (x : Sexp) : Result Program :=
  match x with
  | SAtom "(L5 (define (x : number) 5) (+ x 1))" =>
      makeOk (makeProgram plusProgram)
  | _ => makeFailure (Msg "Unexpected program")
  end.

(* ================================================================= *)
(** ** Notions used to state further properties of the checker *)

(** Induction over [Exp] that also gives the hypothesis for every
    expression of a body, every argument and every bound value. *)
Section ExpInd.
Variable P : Exp -> Prop.
Hypothesis HNum : forall n, P (NumExp n).
Hypothesis HBool : forall b, P (BoolExp b).
Hypothesis HStr : forall s, P (StrExp s).
Hypothesis HPrim : forall op, P (PrimOp op).
Hypothesis HVar : forall v, P (VarRef v).
Hypothesis HIf : forall test then_ alt,
  P test -> P then_ -> P alt -> P (IfExp test then_ alt).
Hypothesis HProc : forall args body returnTE,
  Forall P body -> P (ProcExp args body returnTE).
Hypothesis HApp : forall rator rands,
  P rator -> Forall P rands -> P (AppExp rator rands).
Hypothesis HLet : forall bindings body,
  Forall (fun b : VarDecl * Exp => P (snd b)) bindings -> Forall P body ->
  P (LetExp bindings body).
Hypothesis HLetrec : forall bindings body,
  Forall (fun b : VarDecl * Exp => P (snd b)) bindings -> Forall P body ->
  P (LetrecExp bindings body).
Hypothesis HDefine : forall vd val, P val -> P (DefineExp vd val).
Hypothesis HLit : forall val, P (LitExp val).

Fixpoint Exp_nested_ind (e : Exp) : P e :=
  let all :=
    fix all (l : list Exp) : Forall P l :=
      match l with
      | [] => Forall_nil P
      | x :: l' => Forall_cons x (Exp_nested_ind x) (all l')
      end in
  let allb :=
    fix allb (bs : list (VarDecl * Exp))
      : Forall (fun b : VarDecl * Exp => P (snd b)) bs :=
      match bs with
      | [] => Forall_nil _
      | b :: bs' => Forall_cons b (Exp_nested_ind (snd b)) (allb bs')
      end in
  match e with
  | NumExp n => HNum n
  | BoolExp b => HBool b
  | StrExp s => HStr s
  | PrimOp op => HPrim op
  | VarRef v => HVar v
  | IfExp test then_ alt =>
      HIf test then_ alt (Exp_nested_ind test) (Exp_nested_ind then_)
          (Exp_nested_ind alt)
  | ProcExp args body returnTE => HProc args body returnTE (all body)
  | AppExp rator rands => HApp rator rands (Exp_nested_ind rator) (all rands)
  | LetExp bindings body => HLet bindings body (allb bindings) (all body)
  | LetrecExp bindings body => HLetrec bindings body (allb bindings) (all body)
  | DefineExp vd val => HDefine vd val (Exp_nested_ind val)
  | LitExp val => HLit val
  end.
End ExpInd.

(** Two environments that resolve every name alike. *)
Definition sameLookups (env1 env2 : TEnv) : Prop :=
  forall v, applyTEnv env1 v = applyTEnv env2 v.

(** Some frame of the environment has the name among its names. *)
Fixpoint boundIn (v : string) (tenv : TEnv) : bool :=
  match tenv with
  | EmptyTEnv => false
  | ExtendTEnv vars _ tenv' =>
      existsb (fun x => String.eqb x v) vars || boundIn v tenv'
  end.

(** The environment of the body of a letrec and of the bodies of its
    procedures: every bound name with the procedure type its annotations
    give. *)
Definition letrecTEnvBody (bindings : list (VarDecl * Exp)) (tenv : TEnv)
  : TEnv :=
  makeExtendTEnv
    (map (fun b => var (fst b)) bindings)
    (map (fun b => makeProcTExp (map texp (procArgs (snd b)))
                                (procReturnTE (snd b))) bindings)
    tenv.

(** The operators [typeofPrim] knows. *)
Definition supportedPrimOps : list string :=
  [ "+"; "-"; "*"; "/"; "and"; "or"; ">"; "<"; "="; "number?"; "boolean?";
    "string?"; "list?"; "pair?"; "symbol?"; "not"; "eq?"; "string=?";
    "display"; "newline"; "cons"; "car"; "cdr" ].

(** The binary operators over numbers and booleans with the type of their
    two operands and the type of their result. *)
Definition binaryPrimOps : list (string * (TExp * TExp)) :=
  [ ("+", (NumTExp, NumTExp)); ("-", (NumTExp, NumTExp));
    ("*", (NumTExp, NumTExp)); ("/", (NumTExp, NumTExp));
    (">", (NumTExp, BoolTExp)); ("<", (NumTExp, BoolTExp));
    ("=", (NumTExp, BoolTExp));
    ("and", (BoolTExp, BoolTExp)); ("or", (BoolTExp, BoolTExp)) ].

Definition unaryPredicates : list string :=
  [ "number?"; "boolean?"; "string?"; "list?"; "pair?"; "symbol?" ].

(** No form of the sequence is a define. *)
Definition noDefine (seq : list Exp) : bool :=
  forallb (fun e => negb (isDefineExp e)) seq.

(* ================================================================= *)
(** * Properties *)

(* ================================================================= *)
(** ** Type expressions *)

Lemma equals_spec : forall te1 te2, equals te1 te2 = true <-> te1 = te2.
Proof.
  induction te1 using TExp_nested_ind; destruct te2; simpl;
    try (split; [discriminate | congruence]); try (split; reflexivity).
  - rewrite String.eqb_eq. split; congruence.
  - rewrite andb_true_iff, IHte1.
    assert (Hl : forall l2,
      (fix eqs (l1 l2 : list TExp) {struct l1} : bool :=
         match l1, l2 with
         | [], [] => true
         | x :: l1', y :: l2' => equals x y && eqs l1' l2'
         | _, _ => false
         end) ps l2 = true <-> ps = l2).
    { induction H as [|x l Hx Hl IH]; intros [|y l2]; simpl;
        try (split; [discriminate | congruence]); try (split; reflexivity).
      rewrite andb_true_iff, Hx, IH. split; [intros [-> ->]; reflexivity|].
      intros E; inversion E; auto. }
    rewrite Hl. split; [intros [-> ->]; reflexivity|].
    intros E; inversion E; auto.
  - rewrite andb_true_iff, IHte1_1, IHte1_2.
    split; [intros [-> ->]; reflexivity|]. intros E; inversion E; auto.
Qed.

Lemma equals_refl : forall te, equals te te = true.
Proof. intros te. apply equals_spec. reflexivity. Qed.

Lemma equals_false : forall te1 te2, equals te1 te2 = false <-> te1 <> te2.
Proof.
  intros te1 te2. rewrite <- equals_spec.
  destruct (equals te1 te2); split; congruence.
Qed.

(* ================================================================= *)
(** ** Type environments *)

Lemma applyTEnv_eq : forall tenv v,
  applyTEnv tenv v =
  match tenv with
  | EmptyTEnv => makeFailure (Msg ("Type Variable not found " ++ v))
  | ExtendTEnv vars texps tenv' =>
      applyExtendTEnv texps tenv' v (indexOf v vars)
  end.
Proof. destruct tenv; reflexivity. Qed.

(* ================================================================= *)
(** ** Surface syntax of type expressions *)

Example parseTE_numOp :
  parseTE "(number * number -> number)" = Ok (ProcTExp [NumTExp; NumTExp] NumTExp).
Proof. reflexivity. Qed.

Example parseTE_car :
  parseTE "((Pair T1 T2) -> T1)" =
  Ok (ProcTExp [PairTExp (TVar "T1") (TVar "T2")] (TVar "T1")).
Proof. reflexivity. Qed.

Example parseTE_newline : parseTE "(Empty -> void)" = Ok (ProcTExp [] VoidTExp).
Proof. reflexivity. Qed.

Example unparse_parse_cons :
  bind (parseTE "(T1 * T2 -> (Pair T1 T2))") unparseTExp =
  Ok "(T1 * T2 -> (Pair T1 T2))".
Proof. reflexivity. Qed.

(* ================================================================= *)
(** ** Basic facts about results and equality checks *)

Lemma bind_Ok_inv : forall A B (r : Result A) (f : A -> Result B) b,
  bind r f = Ok b -> exists a, r = Ok a /\ f a = Ok b.
Proof. intros A B [a|e] f b H; simpl in H; [eauto | discriminate]. Qed.

Lemma bind_Ok : forall A B (r : Result A) (f : A -> Result B) a,
  r = Ok a -> bind r f = f a.
Proof. intros; subst; reflexivity. Qed.

Lemma bind_Failure : forall A B (r : Result A) (f : A -> Result B) e,
  r = Failure e -> bind r f = Failure e.
Proof. intros; subst; reflexivity. Qed.

Lemma isFailure_isOk : forall A (r : Result A), isFailure r = negb (isOk r).
Proof. destruct r; reflexivity. Qed.

Lemma isFailure_true : forall A (r : Result A),
  isFailure r = true <-> exists e, r = Failure e.
Proof.
  destruct r; simpl; split; try discriminate; eauto.
  intros [e' H]; discriminate.
Qed.

Lemma isFailure_false : forall A (r : Result A),
  isFailure r = false <-> exists a, r = Ok a.
Proof.
  destruct r; simpl; split; try discriminate; eauto.
  intros [a H]; discriminate.
Qed.

Lemma isFailure_bind_l : forall A B (r : Result A) (f : A -> Result B),
  isFailure r = true -> isFailure (bind r f) = true.
Proof. destruct r; simpl; auto; discriminate. Qed.

Lemma isFailure_bind_r : forall A B (r : Result A) (f : A -> Result B),
  (forall a, isFailure (f a) = true) -> isFailure (bind r f) = true.
Proof. destruct r; simpl; auto. Qed.

Lemma checkEqualType_same : forall te exp, checkEqualType te te exp = Ok true.
Proof. intros. unfold checkEqualType. rewrite equals_refl. reflexivity. Qed.

Lemma checkEqualType_Ok : forall te1 te2 exp c,
  checkEqualType te1 te2 exp = Ok c <-> te1 = te2 /\ c = true.
Proof.
  intros te1 te2 exp c. unfold checkEqualType.
  destruct (equals te1 te2) eqn:E.
  - apply equals_spec in E. split.
    + intros H; inversion H; auto.
    + intros [_ ->]; reflexivity.
  - apply equals_false in E. simpl. split; [discriminate | intros [H _]; contradiction].
Qed.

Lemma checkEqualType_diff : forall te1 te2 exp,
  te1 <> te2 ->
  checkEqualType te1 te2 exp =
  Failure (IncompatibleTypes (texpText te1) (texpText te2) exp).
Proof.
  intros te1 te2 exp H. unfold checkEqualType.
  apply equals_false in H. rewrite H. reflexivity.
Qed.

(* ================================================================= *)
(** ** The fixpoints in the source's form *)

Lemma typeofSExpLiteral_compound : forall val1 val2,
  typeofSExpLiteral (CompoundSExp val1 val2) = typeofCompoundSExp val1 val2.
Proof. reflexivity. Qed.

Lemma typeofExps_eq : forall exps tenv,
  typeofExps exps tenv =
  match exps with
  | first :: rest =>
      match rest with
      | [] => typeofExp first tenv
      | _ :: _ => bind (typeofExp first tenv) (fun _ => typeofExps rest tenv)
      end
  | [] => makeFailure (Msg "Unexpected empty list of expressions")
  end.
Proof. intros [|first rest] tenv; reflexivity. Qed.

Lemma letConstraintsWith_zip : forall exp tenv bs,
  letConstraintsWith typeofExp exp tenv bs =
  zipWithResult (fun varTE val =>
      bind (typeofExp val tenv) (fun typeOfVal =>
        checkEqualType varTE typeOfVal exp))
    (map (fun b => texp (fst b)) bs) (map (fun b => snd b) bs).
Proof.
  intros exp tenv. induction bs as [|b bs IH]; simpl; [reflexivity|].
  rewrite IH. reflexivity.
Qed.

Lemma letrecTypesWith_zip : forall tenvBody bs,
  letrecTypesWith typeofExp tenvBody bs =
  zipWithResult (fun bodyI tenvI => typeofExps bodyI tenvI)
    (map procBody (map (fun b => snd b) bs))
    (zipWith (fun params tij => makeExtendTEnv (map var params) tij tenvBody)
             (map procArgs (map (fun b => snd b) bs))
             (map (fun params => map texp params)
                  (map procArgs (map (fun b => snd b) bs)))).
Proof.
  intros tenvBody. induction bs as [|[vd v] bs IH]; [reflexivity|].
  cbn [map snd zipWith zipWithResult]. rewrite <- IH.
  destruct v; reflexivity.
Qed.

(** The dispatch of [typeofExp], case by case as the source has it. *)
Lemma typeofExp_eq : forall exp tenv,
  typeofExp exp tenv =
  match exp with
  | NumExp _ => makeOk typeofNum
  | BoolExp _ => makeOk typeofBool
  | StrExp _ => makeOk typeofStr
  | PrimOp op => typeofPrim op
  | VarRef v => applyTEnv tenv v
  | IfExp test then_ alt => typeofIf test then_ alt tenv
  | ProcExp args body returnTE => typeofProc args body returnTE tenv
  | AppExp rator rands => typeofApp rator rands tenv
  | LetExp bindings body => typeofLet bindings body tenv
  | LetrecExp bindings body => typeofLetrec bindings body tenv
  | DefineExp vd val => typeofDefine vd val tenv
  | LitExp val => typeofLit val
  end.
Proof.
  destruct exp; intros tenv; try reflexivity.
  - simpl. unfold typeofLetWith, typeofLet.
    rewrite letConstraintsWith_zip. reflexivity.
  - simpl. unfold typeofLetrecWith, typeofLetrec.
    destruct (negb (allT isProcExp (map (fun b => snd b) bindings))); [reflexivity|].
    rewrite letrecTypesWith_zip. reflexivity.
Qed.

Lemma typeOfSequence_eq : forall seq env,
  typeOfSequence seq env =
  match seq with
  | first :: rest => typeOfFirst first rest env
  | [] => makeFailure (Msg "Empty sequence")
  end.
Proof. intros [|first rest] env; reflexivity. Qed.

Lemma typeOfFirst_eq : forall first rest env,
  typeOfFirst first rest env =
  match first with
  | DefineExp vd val => typeofDefineExps vd val rest env
  | _ =>
      match rest with
      | [] => typeofExp first env
      | _ :: _ => bind (typeofExp first env) (fun _ => typeOfSequence rest env)
      end
  end.
Proof. intros first rest env. destruct first; reflexivity. Qed.

Lemma typeofDefineExps_eq : forall vd val rest tenv,
  typeofDefineExps vd val rest tenv =
  bind (bind (typeofExp val tenv) (fun valTE =>
          checkEqualType (texp vd) valTE (DefineExp vd val)))
       (fun _ =>
          bind (combineEnvs tenv (makeExtendTEnv [var vd] [texp vd] tenv))
               (fun env => typeOfSequence rest env)).
Proof. reflexivity. Qed.

(* ================================================================= *)
(** ** Quoted literals *)

Lemma typeofSExpLiteral_classify : forall val,
  typeofSExpLiteral val = Ok (classifySExp val).
Proof.
  induction val as [n|b|s|s| |val1 IH1 val2 IH2]; simpl; try reflexivity.
  rewrite IH1, IH2. reflexivity.
Qed.

(** C2, as stated, fails: the quoted number [5] is typed as the type
    variable ["literal"], not as [Num]. *)
Lemma typeofLit_number_not_Num :
  typeofExp (LitExp (SNumber 5)) makeEmptyTEnv = Ok (TVar "literal") /\
  typeofExp (LitExp (SNumber 5)) makeEmptyTEnv <> Ok NumTExp.
Proof. split; [reflexivity | discriminate]. Qed.

(** C2, amended: a quoted literal whose value is not compound (a number, a
    boolean, a string, a symbol or the empty value) has the type variable
    ["literal"] as its type; the classification into [Num], [Bool], [Str],
    ["literal"] and [Empty] is applied to the two halves of a compound
    value, whose type is the pair of the two classifications. *)
Theorem typeofLit_classification : forall val tenv,
  (isCompoundSExp val = false ->
   typeofExp (LitExp val) tenv = Ok (TVar "literal")) /\
  (forall val1 val2, val = CompoundSExp val1 val2 ->
   typeofExp (LitExp val) tenv =
   Ok (PairTExp (classifySExp val1) (classifySExp val2))).
Proof.
  intros val tenv. split.
  - intros H. destruct val; try reflexivity. discriminate.
  - intros val1 val2 ->. simpl. unfold typeofCompoundSExp.
    rewrite !typeofSExpLiteral_classify. reflexivity.
Qed.

Lemma typeofLit_classification_witness :
  typeofExp (LitExp (SString "a")) makeEmptyTEnv = Ok (TVar "literal") /\
  typeofExp (LitExp (CompoundSExp (SString "a") EmptySExp)) makeEmptyTEnv =
  Ok (PairTExp StrTExp EmptyTupleTExp).
Proof.
  split.
  - apply (proj1 (typeofLit_classification (SString "a") makeEmptyTEnv)).
    reflexivity.
  - apply (proj2 (typeofLit_classification
                    (CompoundSExp (SString "a") EmptySExp) makeEmptyTEnv)
                 (SString "a") EmptySExp).
    reflexivity.
Defined.

(** What the program entry point returns for a program that is one quoted
    literal. *)
Lemma L5programTypeof_LitExp :
  forall p parseL5Program concreteExp val,
    bind (p concreteExp) parseL5Program = Ok (makeProgram [LitExp val]) ->
    L5programTypeof p parseL5Program concreteExp =
    bind (typeofLit val) unparseTExp.
Proof.
  intros p parseL5Program concreteExp val H. unfold L5programTypeof.
  destruct (p concreteExp) as [x|e]; simpl in *; [|discriminate].
  rewrite H. reflexivity.
Qed.

(** C9: for a reader and AST builder that turn the text into the program of
    one quoted literal, [L5programTypeof] renders the quoted number [5] as
    ["literal"] (and so not as ["number"]), the quoted pair [(4 . 7)] as
    ["(Pair number number)"] and [(#t . 10)] as ["(Pair boolean number)"]:
    the two halves of a compound literal are classified recursively. *)
Theorem L5programTypeof_quoted :
  forall p parseL5Program concreteExp val,
    bind (p concreteExp) parseL5Program = Ok (makeProgram [LitExp val]) ->
    (val = SNumber 5 ->
     L5programTypeof p parseL5Program concreteExp = Ok "literal" /\
     L5programTypeof p parseL5Program concreteExp <> Ok "number") /\
    (val = CompoundSExp (SNumber 4) (SNumber 7) ->
     L5programTypeof p parseL5Program concreteExp = Ok "(Pair number number)") /\
    (val = CompoundSExp (SBoolean true) (SNumber 10) ->
     L5programTypeof p parseL5Program concreteExp = Ok "(Pair boolean number)") /\
    (forall val1 val2, val = CompoundSExp val1 val2 ->
     L5programTypeof p parseL5Program concreteExp =
     unparseTExp (PairTExp (classifySExp val1) (classifySExp val2))).
Proof.
  intros p parseL5Program concreteExp val H.
  rewrite (L5programTypeof_LitExp _ _ _ _ H).
  repeat split; intros; subst; try reflexivity; try discriminate.
  simpl. unfold typeofCompoundSExp.
  rewrite !typeofSExpLiteral_classify. reflexivity.
Qed.

Lemma L5programTypeof_quoted_witness :
  L5programTypeof quoteReader quoteProgram "(L5 '(#t . 10))" =
  Ok "(Pair boolean number)".
Proof.
  apply (proj1 (proj2 (proj2
           (@L5programTypeof_quoted quoteReader quoteProgram "(L5 '(#t . 10))"
              (CompoundSExp (SBoolean true) (SNumber 10)) eq_refl))));
    reflexivity.
Defined.

(* ================================================================= *)
(** ** Define and letrec *)

Lemma typeofDefine_Ok : forall vd val tenv t,
  typeofExp (DefineExp vd val) tenv = Ok t <->
  typeofExp val tenv = Ok (texp vd) /\ t = VoidTExp.
Proof.
  intros vd val tenv t. simpl. unfold typeofDefineWith. split.
  - intros H. apply bind_Ok_inv in H. destruct H as [c [Hc Ht]].
    apply bind_Ok_inv in Hc. destruct Hc as [valTE [Hval Hchk]].
    apply checkEqualType_Ok in Hchk. destruct Hchk as [-> _].
    inversion Ht. auto.
  - intros [Hval ->]. rewrite Hval. simpl.
    rewrite checkEqualType_same. reflexivity.
Qed.

Lemma typeofDefine_mismatch : forall vd val tenv t2,
  typeofExp val tenv = Ok t2 -> t2 <> texp vd ->
  typeofExp (DefineExp vd val) tenv =
  Failure (IncompatibleTypes (texpText (texp vd)) (texpText t2)
                             (DefineExp vd val)).
Proof.
  intros vd val tenv t2 Hval Hne. simpl. unfold typeofDefineWith.
  rewrite Hval. simpl. rewrite checkEqualType_diff by congruence.
  reflexivity.
Qed.

Lemma L5typeof_parsed : forall p parseL5Exp concreteExp e,
  bind (p concreteExp) parseL5Exp = Ok e ->
  L5typeof p parseL5Exp concreteExp =
  bind (typeofExp e makeEmptyTEnv) unparseTExp.
Proof.
  intros p parseL5Exp concreteExp e H. unfold L5typeof.
  destruct (p concreteExp) as [x|err]; simpl in *; [|discriminate].
  rewrite H. reflexivity.
Qed.

(** C7: a standalone define type-checks exactly when the computed type of
    its value equals the declared type, and its type is then [Void], which
    [L5typeof] renders as ["void"]; when the value has another type the
    result is a failure, from [typeofExp] and from [L5typeof] alike. *)
Theorem typeofDefine_void : forall vd val tenv,
  (forall t, typeofExp (DefineExp vd val) tenv = Ok t <->
             typeofExp val tenv = Ok (texp vd) /\ t = VoidTExp) /\
  (forall t2, typeofExp val tenv = Ok t2 -> t2 <> texp vd ->
              isFailure (typeofExp (DefineExp vd val) tenv) = true) /\
  (forall p parseL5Exp concreteExp,
     bind (p concreteExp) parseL5Exp = Ok (DefineExp vd val) ->
     (typeofExp val makeEmptyTEnv = Ok (texp vd) ->
      L5typeof p parseL5Exp concreteExp = Ok "void") /\
     (forall t2, typeofExp val makeEmptyTEnv = Ok t2 -> t2 <> texp vd ->
      isFailure (L5typeof p parseL5Exp concreteExp) = true)).
Proof.
  intros vd val tenv. split; [|split].
  - intros t. apply typeofDefine_Ok.
  - intros t2 Hval Hne. rewrite (typeofDefine_mismatch _ _ _ _ Hval Hne).
    reflexivity.
  - intros p parseL5Exp concreteExp Hparse.
    rewrite (L5typeof_parsed _ _ _ _ Hparse). split.
    + intros Hval.
      assert (H : typeofExp (DefineExp vd val) makeEmptyTEnv = Ok VoidTExp)
        by (apply typeofDefine_Ok; auto).
      rewrite H. reflexivity.
    + intros t2 Hval Hne. rewrite (typeofDefine_mismatch _ _ _ _ Hval Hne).
      reflexivity.
Qed.

Lemma typeofDefine_void_witness :
  L5typeof defineReader defineExpOf "(define (x : number) 5)" = Ok "void" /\
  isFailure (L5typeof defineReader defineExpOf "(define (x : boolean) 5)") = true.
Proof.
  split.
  - apply (proj1 (proj2 (proj2
             (typeofDefine_void (makeVarDecl "x" NumTExp) (NumExp 5)
                                makeEmptyTEnv))
             defineReader defineExpOf "(define (x : number) 5)" eq_refl)).
    reflexivity.
  - apply (proj2 (proj2 (proj2
             (typeofDefine_void (makeVarDecl "x" BoolTExp) (NumExp 5)
                                makeEmptyTEnv))
             defineReader defineExpOf "(define (x : boolean) 5)" eq_refl)
             NumTExp).
    + reflexivity.
    + discriminate.
Defined.

(** C8: a letrec with a binding whose value is not a procedure expression
    fails, whatever the declared types, the body and the environment. *)
Theorem typeofLetrec_non_procedure : forall bindings body tenv,
  (exists b, In b bindings /\ isProcExp (snd b) = false) ->
  typeofExp (LetrecExp bindings body) tenv =
  Failure (LetrecOnlyProcedures (LetrecExp bindings body)).
Proof.
  intros bindings body tenv [b [Hin Hb]].
  simpl. unfold typeofLetrecWith.
  assert (H : allT isProcExp (map (fun b => snd b) bindings) = false).
  { unfold allT. apply not_true_is_false. intros Hall.
    rewrite forallb_forall in Hall.
    specialize (Hall (snd b) (in_map _ _ _ Hin)). congruence. }
  rewrite H. reflexivity.
Qed.

Lemma typeofLetrec_non_procedure_witness :
  typeofExp (LetrecExp [(makeVarDecl "f" (ProcTExp [NumTExp] NumTExp), NumExp 1)]
                       [NumExp 2]) makeEmptyTEnv =
  Failure (LetrecOnlyProcedures
             (LetrecExp [(makeVarDecl "f" (ProcTExp [NumTExp] NumTExp), NumExp 1)]
                        [NumExp 2])).
Proof.
  apply typeofLetrec_non_procedure.
  exists (makeVarDecl "f" (ProcTExp [NumTExp] NumTExp), NumExp 1).
  split; [left; reflexivity | reflexivity].
Defined.

(* ================================================================= *)
(** ** Applications *)

Lemma typeofApp_generic : forall rator rands tenv,
  isBespokePrim rator = false ->
  typeofExp (AppExp rator rands) tenv =
  typeofAppGenericWith typeofExp rator rands tenv.
Proof.
  intros rator rands tenv H. simpl. unfold typeofAppWith.
  destruct rator; try reflexivity.
  simpl in H. apply orb_false_iff in H. destruct H as [H Hcons].
  apply orb_false_iff in H. destruct H as [Hcar Hcdr].
  rewrite Hcar, Hcdr, Hcons. reflexivity.
Qed.

Lemma result_cases : forall A (r : Result A),
  (exists a, r = Ok a) \/ (exists e, r = Failure e).
Proof. destruct r; eauto. Qed.

(** The argument constraints of the generic rule hold together exactly when
    every argument has the declared type of its parameter. *)
Lemma appConstraints_Ok : forall app tenv rands paramTEs,
  List.length rands = List.length paramTEs ->
  ((exists cs,
      zipWithResult (fun rand trand =>
          bind (typeofExp rand tenv) (fun typeOfRand =>
            checkEqualType typeOfRand trand app))
        rands paramTEs = Ok cs) <->
   Forall2 (fun rand trand => typeofExp rand tenv = Ok trand) rands paramTEs).
Proof.
  intros app tenv. induction rands as [|rand rands IH]; intros [|trand ps] Hlen;
    simpl in Hlen; try discriminate.
  - simpl. split; [constructor | eauto].
  - injection Hlen as Hlen. specialize (IH ps Hlen). simpl. split.
    + intros [cs H]. apply bind_Ok_inv in H. destruct H as [c [Hc H]].
      apply bind_Ok_inv in Hc. destruct Hc as [t [Ht Hchk]].
      apply checkEqualType_Ok in Hchk. destruct Hchk as [-> _].
      apply bind_Ok_inv in H. destruct H as [cs' [Hcs' _]].
      constructor; [assumption | apply IH; eauto].
    + intros H. inversion H as [|? ? ? ? Hrand Hrest]; subst.
      apply IH in Hrest. destruct Hrest as [cs' Hcs'].
      rewrite Hrand. simpl. rewrite checkEqualType_same. simpl.
      rewrite Hcs'. simpl. eauto.
Qed.

Lemma typeofAppGeneric_Ok : forall rator rands tenv t,
  typeofAppGenericWith typeofExp rator rands tenv = Ok t <->
  exists paramTEs,
    typeofExp rator tenv = Ok (ProcTExp paramTEs t) /\
    List.length rands = List.length paramTEs /\
    Forall2 (fun rand trand => typeofExp rand tenv = Ok trand) rands paramTEs.
Proof.
  intros rator rands tenv t. unfold typeofAppGenericWith. split.
  - intros H. apply bind_Ok_inv in H. destruct H as [ratorTE [Hrator H]].
    destruct ratorTE; simpl in H; try discriminate.
    destruct (Nat.eqb (List.length rands) (List.length paramTEs)) eqn:Hlen;
      simpl in H; [|discriminate].
    apply Nat.eqb_eq in Hlen.
    apply bind_Ok_inv in H. destruct H as [cs [Hcs Ht]].
    inversion Ht; subst. exists paramTEs. repeat split; auto.
    apply (appConstraints_Ok (AppExp rator rands) tenv rands paramTEs Hlen).
    eauto.
  - intros [paramTEs [Hrator [Hlen Hall]]]. rewrite Hrator. simpl.
    rewrite (proj2 (Nat.eqb_eq _ _) Hlen). simpl.
    apply (appConstraints_Ok (AppExp rator rands) tenv rands paramTEs Hlen)
      in Hall.
    destruct Hall as [cs Hcs]. rewrite Hcs. reflexivity.
Qed.

(** C5: an application whose operator is not [car], [cdr] or [cons] has
    type [t] exactly when the operator has a procedure type with return type
    [t], there are as many arguments as declared parameters, and every
    argument has the declared type of its parameter.  An operator of another
    type, a wrong number of arguments and an argument of another type each
    give a failure. *)
Theorem typeofApp_generic_rule : forall rator rands tenv,
  isBespokePrim rator = false ->
  (forall t,
     typeofExp (AppExp rator rands) tenv = Ok t <->
     exists paramTEs,
       typeofExp rator tenv = Ok (ProcTExp paramTEs t) /\
       List.length rands = List.length paramTEs /\
       Forall2 (fun rand trand => typeofExp rand tenv = Ok trand)
               rands paramTEs) /\
  (forall ratorTE,
     typeofExp rator tenv = Ok ratorTE -> isProcTExp ratorTE = false ->
     typeofExp (AppExp rator rands) tenv =
     Failure (NonProcedure (texpText ratorTE) (AppExp rator rands))) /\
  (forall paramTEs returnTE,
     typeofExp rator tenv = Ok (ProcTExp paramTEs returnTE) ->
     List.length rands <> List.length paramTEs ->
     typeofExp (AppExp rator rands) tenv =
     Failure (WrongParameterNumbers (AppExp rator rands))) /\
  (forall paramTEs returnTE,
     typeofExp rator tenv = Ok (ProcTExp paramTEs returnTE) ->
     List.length rands = List.length paramTEs ->
     ~ Forall2 (fun rand trand => typeofExp rand tenv = Ok trand)
               rands paramTEs ->
     isFailure (typeofExp (AppExp rator rands) tenv) = true).
Proof.
  intros rator rands tenv Hgen.
  rewrite (typeofApp_generic rator rands tenv Hgen).
  split; [|split; [|split]].
  - intros t. apply typeofAppGeneric_Ok.
  - intros ratorTE Hrator Hnp. unfold typeofAppGenericWith.
    rewrite Hrator. simpl. destruct ratorTE; try reflexivity. discriminate.
  - intros paramTEs returnTE Hrator Hlen. unfold typeofAppGenericWith.
    rewrite Hrator. simpl. apply Nat.eqb_neq in Hlen. rewrite Hlen.
    reflexivity.
  - intros paramTEs returnTE Hrator Hlen Hnot.
    destruct (result_cases _ (typeofAppGenericWith typeofExp rator rands tenv))
      as [[t Ht]|[e He]].
    + exfalso. apply typeofAppGeneric_Ok in Ht.
      destruct Ht as [ps [Hr [_ Hall]]].
      rewrite Hrator in Hr. inversion Hr; subst. contradiction.
    + rewrite He. reflexivity.
Qed.

(** The application [(f 1)] with [f] of type [(number -> boolean)]. *)
Lemma typeofApp_generic_rule_witness :
  typeofExp (AppExp (VarRef "f") [NumExp 1])
            (makeExtendTEnv ["f"] [ProcTExp [NumTExp] BoolTExp] makeEmptyTEnv) =
  Ok BoolTExp.
Proof.
  apply (proj1 (typeofApp_generic_rule (VarRef "f") [NumExp 1]
           (makeExtendTEnv ["f"] [ProcTExp [NumTExp] BoolTExp] makeEmptyTEnv)
           eq_refl)).
  exists [NumTExp]. split; [reflexivity | split; [reflexivity|]].
  constructor; [reflexivity | constructor].
Defined.

(** C6: [(car e)] and [(cdr e)] type-check exactly when there is one
    argument and its type is a pair type, and give the first and the second
    component of that type; [(cons e1 e2)] type-checks exactly when there
    are two arguments, which have types [t1] and [t2], and gives
    [Pair t1 t2] with nothing asked of [t1] and [t2].  Each of the three
    fails otherwise. *)
Theorem typeofApp_car_cdr_cons : forall rands tenv,
  (forall t,
     typeofExp (AppExp (PrimOp "car") rands) tenv = Ok t <->
     exists rand second,
       rands = [rand] /\ typeofExp rand tenv = Ok (PairTExp t second)) /\
  (forall t,
     typeofExp (AppExp (PrimOp "cdr") rands) tenv = Ok t <->
     exists rand first,
       rands = [rand] /\ typeofExp rand tenv = Ok (PairTExp first t)) /\
  (forall t,
     typeofExp (AppExp (PrimOp "cons") rands) tenv = Ok t <->
     exists rand1 rand2 t1 t2,
       rands = [rand1; rand2] /\ typeofExp rand1 tenv = Ok t1 /\
       typeofExp rand2 tenv = Ok t2 /\ t = PairTExp t1 t2) /\
  (forall op, op = "car" \/ op = "cdr" ->
     ~ (exists rand first second,
          rands = [rand] /\ typeofExp rand tenv = Ok (PairTExp first second)) ->
     isFailure (typeofExp (AppExp (PrimOp op) rands) tenv) = true) /\
  (~ (exists rand1 rand2 t1 t2,
        rands = [rand1; rand2] /\ typeofExp rand1 tenv = Ok t1 /\
        typeofExp rand2 tenv = Ok t2) ->
   isFailure (typeofExp (AppExp (PrimOp "cons") rands) tenv) = true).
Proof.
  intros rands tenv.
  assert (Hcar : forall t,
     typeofExp (AppExp (PrimOp "car") rands) tenv = Ok t <->
     exists rand second,
       rands = [rand] /\ typeofExp rand tenv = Ok (PairTExp t second)).
  { intros t. cbn. destruct rands as [|rand [|rand2 rest]]; cbn.
    - split; [discriminate | intros [r [s [H _]]]; discriminate].
    - split.
      + intros H. apply bind_Ok_inv in H. destruct H as [pair [Hp H]].
        destruct pair; try discriminate. inversion H; subst. eauto.
      + intros [r [s [H Hr]]]. inversion H; subst. rewrite Hr. reflexivity.
    - split; [discriminate | intros [r [s [H _]]]; discriminate]. }
  assert (Hcdr : forall t,
     typeofExp (AppExp (PrimOp "cdr") rands) tenv = Ok t <->
     exists rand first,
       rands = [rand] /\ typeofExp rand tenv = Ok (PairTExp first t)).
  { intros t. cbn. destruct rands as [|rand [|rand2 rest]]; cbn.
    - split; [discriminate | intros [r [s [H _]]]; discriminate].
    - split.
      + intros H. apply bind_Ok_inv in H. destruct H as [pair [Hp H]].
        destruct pair; try discriminate. inversion H; subst. eauto.
      + intros [r [s [H Hr]]]. inversion H; subst. rewrite Hr. reflexivity.
    - split; [discriminate | intros [r [s [H _]]]; discriminate]. }
  assert (Hcons : forall t,
     typeofExp (AppExp (PrimOp "cons") rands) tenv = Ok t <->
     exists rand1 rand2 t1 t2,
       rands = [rand1; rand2] /\ typeofExp rand1 tenv = Ok t1 /\
       typeofExp rand2 tenv = Ok t2 /\ t = PairTExp t1 t2).
  { intros t. cbn. destruct rands as [|rand1 [|rand2 [|rand3 rest]]]; cbn;
      try (split; [discriminate | intros [r1 [r2 [t1 [t2 [H _]]]]]; discriminate]).
    split.
    - intros H. apply bind_Ok_inv in H. destruct H as [t1 [H1 H]].
      apply bind_Ok_inv in H. destruct H as [t2 [H2 H]].
      inversion H; subst. exists rand1, rand2, t1, t2. auto.
    - intros [r1 [r2 [t1 [t2 [H [H1 [H2 ->]]]]]]]. inversion H; subst.
      rewrite H1. simpl. rewrite H2. reflexivity. }
  split; [exact Hcar | split; [exact Hcdr | split; [exact Hcons | split]]].
  - intros op Hop Hnot.
    destruct (result_cases _ (typeofExp (AppExp (PrimOp op) rands) tenv))
      as [[t Ht]|[e He]]; [exfalso | rewrite He; reflexivity].
    apply Hnot. destruct Hop as [-> | ->].
    + apply Hcar in Ht. destruct Ht as [rand [second [H1 H2]]]. eauto.
    + apply Hcdr in Ht. destruct Ht as [rand [first [H1 H2]]]. eauto.
  - intros Hnot.
    destruct (result_cases _ (typeofExp (AppExp (PrimOp "cons") rands) tenv))
      as [[t Ht]|[e He]]; [exfalso | rewrite He; reflexivity].
    apply Hnot. apply Hcons in Ht.
    destruct Ht as [r1 [r2 [t1 [t2 [H [H1 [H2 _]]]]]]]. eauto 8.
Qed.

(** [(car '(4 . 7))], [(cons 5 #t)] and [(cdr 5)]. *)
Lemma typeofApp_car_cdr_cons_witness :
  typeofExp (AppExp (PrimOp "car") [LitExp (CompoundSExp (SNumber 4) (SNumber 7))])
            makeEmptyTEnv = Ok NumTExp /\
  typeofExp (AppExp (PrimOp "cons") [NumExp 5; BoolExp true]) makeEmptyTEnv =
  Ok (PairTExp NumTExp BoolTExp) /\
  isFailure (typeofExp (AppExp (PrimOp "cdr") [NumExp 5]) makeEmptyTEnv) = true.
Proof.
  split; [|split].
  - apply (proj1 (typeofApp_car_cdr_cons
             [LitExp (CompoundSExp (SNumber 4) (SNumber 7))] makeEmptyTEnv)).
    exists (LitExp (CompoundSExp (SNumber 4) (SNumber 7))), NumTExp.
    split; reflexivity.
  - apply (proj1 (proj2 (proj2 (typeofApp_car_cdr_cons
             [NumExp 5; BoolExp true] makeEmptyTEnv)))).
    exists (NumExp 5), (BoolExp true), NumTExp, BoolTExp.
    repeat split; reflexivity.
  - apply (proj1 (proj2 (proj2 (proj2 (typeofApp_car_cdr_cons
             [NumExp 5] makeEmptyTEnv)))) "cdr").
    + right; reflexivity.
    + intros [rand [first [second [H1 H2]]]].
      inversion H1; subst. discriminate.
Defined.

(* ================================================================= *)
(** ** Sequences of top-level forms *)

Lemma typeOfSequence_define : forall vd val rest env,
  typeOfSequence (DefineExp vd val :: rest) env =
  typeofDefineExps vd val rest env.
Proof. reflexivity. Qed.

Lemma typeOfSequence_last : forall first env,
  isDefineExp first = false ->
  typeOfSequence [first] env = typeofExp first env.
Proof. intros first env H. destruct first; try reflexivity. discriminate. Qed.

Lemma typeOfSequence_discard : forall first rest env,
  isDefineExp first = false -> rest <> [] ->
  typeOfSequence (first :: rest) env =
  bind (typeofExp first env) (fun _ => typeOfSequence rest env).
Proof.
  intros first rest env H Hrest.
  destruct rest as [|form rest]; [contradiction|].
  destruct first; try reflexivity. discriminate.
Qed.






(* ================================================================= *)
(** ** Polymorphic primitives *)

(** C4, as stated, fails: a reference to [number?] and a reference to
    [boolean?] both get [(T -> boolean)], so the two types share the
    type-variable name [T]. *)
Lemma typeofPrim_shared_name :
  typeofExp (PrimOp "number?") makeEmptyTEnv = Ok (ProcTExp [TVar "T"] BoolTExp) /\
  typeofExp (PrimOp "boolean?") makeEmptyTEnv = Ok (ProcTExp [TVar "T"] BoolTExp) /\
  ~ disjointNames (tvarNames (ProcTExp [TVar "T"] BoolTExp))
                  (tvarNames (ProcTExp [TVar "T"] BoolTExp)).
Proof.
  split; [reflexivity | split; [reflexivity|]].
  intros H. apply (H "T"); simpl; auto.
Qed.

(** C4, amended: every reference to a polymorphic primitive is typed with
    the fixed signature of the operator, in every environment, so the
    type-variable names are [T], or [T1] and [T2], at each reference; two
    references to one operator return equal types, with the same names. *)
Theorem typeofPrim_fixed_signature : forall op te,
  In (op, te) polymorphicSignatures ->
  (forall tenv, typeofExp (PrimOp op) tenv = Ok te) /\
  (forall tenv1 tenv2 te1 te2,
     typeofExp (PrimOp op) tenv1 = Ok te1 ->
     typeofExp (PrimOp op) tenv2 = Ok te2 ->
     te1 = te2 /\ tvarNames te1 = tvarNames te2) /\
  tvarNames te <> [] /\
  (forall x, In x (tvarNames te) -> In x ["T"; "T1"; "T2"]).
Proof.
  intros op te Hin.
  assert (Hop : typeofPrim op = Ok te).
  { simpl in Hin.
    repeat (destruct Hin as [Hin|Hin]; [inversion Hin; subst; reflexivity|]).
    contradiction. }
  split; [|split; [|split]].
  - intros tenv. exact Hop.
  - intros tenv1 tenv2 te1 te2 H1 H2. simpl in H1, H2.
    rewrite Hop in H1, H2. inversion H1; inversion H2; subst. auto.
  - simpl in Hin.
    repeat (destruct Hin as [Hin|Hin]; [inversion Hin; subst; discriminate|]).
    contradiction.
  - intros x Hx. simpl in Hin.
    repeat (destruct Hin as [Hin|Hin];
            [inversion Hin; subst; simpl in Hx; simpl; tauto|]).
    contradiction.
Qed.

Lemma typeofPrim_fixed_signature_witness :
  typeofExp (PrimOp "car") makeEmptyTEnv =
  Ok (ProcTExp [PairTExp (TVar "T1") (TVar "T2")] (TVar "T1")).
Proof.
  apply (proj1 (typeofPrim_fixed_signature "car"
                  (ProcTExp [PairTExp (TVar "T1") (TVar "T2")] (TVar "T1"))
                  ltac:(simpl; tauto))).
Defined.

(* ================================================================= *)
(** ** Merging environments *)

Lemma indexOf_None : forall v vars, indexOf v vars = None <-> ~ In v vars.
Proof.
  intros v. induction vars as [|x vars IH]; simpl.
  - tauto.
  - destruct (String.eqb x v) eqn:E.
    + apply String.eqb_eq in E. split; [discriminate | intros H; tauto].
    + apply String.eqb_neq in E.
      destruct (indexOf v vars) as [pos|].
      * split; [discriminate|]. intros H. exfalso. apply H. right.
        destruct (in_dec string_dec v vars) as [Hin|Hin]; [assumption|].
        apply IH in Hin. discriminate.
      * split; [|reflexivity]. intros _ [H|H]; [contradiction|].
        revert H. apply IH. reflexivity.
Qed.

Lemma indexOf_Some : forall v vars pos,
  indexOf v vars = Some pos -> nth_error vars pos = Some v.
Proof.
  intros v. induction vars as [|x vars IH]; simpl; intros pos H.
  - discriminate.
  - destruct (String.eqb x v) eqn:E.
    + apply String.eqb_eq in E. inversion H; subst. reflexivity.
    + destruct (indexOf v vars) as [pos'|]; [|discriminate].
      inversion H; subst. simpl. apply IH. reflexivity.
Qed.

Lemma frameLookup_In : forall vars texps v,
  List.length vars = List.length texps -> In v vars ->
  exists te, frameLookup vars texps v = Some te.
Proof.
  intros vars texps v Hlen Hin. unfold frameLookup.
  destruct (indexOf v vars) as [pos|] eqn:E.
  - apply indexOf_Some in E.
    assert (Hlt : pos < List.length texps).
    { rewrite <- Hlen. apply nth_error_Some. congruence. }
    unfold arrayAt. destruct (nth_error texps pos) eqn:N; [eauto|].
    apply nth_error_None in N. lia.
  - apply indexOf_None in E. contradiction.
Qed.

(** A [flat_map] that contributes one element for every element of the
    list is read index by index. *)
Lemma flat_map_defined : forall (g : string -> option TExp) l,
  (forall x, In x l -> exists te, g x = Some te) ->
  List.length
    (flat_map (fun x => match g x with Some te => [te] | None => [] end) l)
  = List.length l /\
  forall i,
    nth_error
      (flat_map (fun x => match g x with Some te => [te] | None => [] end) l) i
    = match nth_error l i with Some x => g x | None => None end.
Proof.
  intros g. induction l as [|x l IH]; intros Hall.
  - simpl. split; [reflexivity | intros [|i]; reflexivity].
  - destruct (Hall x (or_introl eq_refl)) as [te Hx].
    destruct (IH (fun y Hy => Hall y (or_intror Hy))) as [IHlen IHnth].
    simpl. rewrite Hx. simpl. split; [congruence|].
    intros [|i]; simpl; [congruence | apply IHnth].
Qed.

(** The frame [makeNewEnv] builds gives a name the type the second frame
    gives it when the name passes the filter, and no type otherwise. *)
Lemma diffFrame_lookup : forall (keep : string -> bool) vars texps,
  List.length vars = List.length texps ->
  let diffVars := filter keep vars in
  let diffTexps :=
    flat_map (fun v =>
                match indexOf v vars with
                | Some pos =>
                    match arrayAt texps pos with
                    | Some te => [te]
                    | None => []
                    end
                | None => []
                end) diffVars in
  List.length diffTexps = List.length diffVars /\
  forall v, frameLookup diffVars diffTexps v =
            if keep v then frameLookup vars texps v else None.
Proof.
  intros keep vars texps Hlen diffVars diffTexps.
  assert (Hext : diffTexps =
    flat_map (fun v => match frameLookup vars texps v with
                       | Some te => [te] | None => [] end) diffVars).
  { unfold diffTexps. apply flat_map_ext. intros v. unfold frameLookup.
    destruct (indexOf v vars); reflexivity. }
  assert (Hall : forall x, In x diffVars ->
                           exists te, frameLookup vars texps x = Some te).
  { intros x Hx. apply filter_In in Hx. destruct Hx as [Hx _].
    apply frameLookup_In; assumption. }
  destruct (flat_map_defined (frameLookup vars texps) diffVars Hall)
    as [Hl Hnth].
  rewrite Hext. split; [exact Hl|].
  intros v. unfold frameLookup at 1.
  destruct (indexOf v diffVars) as [pos|] eqn:E.
  - pose proof (indexOf_Some _ _ _ E) as Hpos.
    unfold arrayAt. rewrite Hnth, Hpos.
    assert (Hin : In v diffVars) by (eapply nth_error_In; eassumption).
    apply filter_In in Hin. destruct Hin as [_ Hk]. rewrite Hk. reflexivity.
  - apply indexOf_None in E. destruct (keep v) eqn:Hk; [|reflexivity].
    assert (Hnin : ~ In v vars).
    { intros Hin. apply E. apply filter_In. auto. }
    apply indexOf_None in Hnin. unfold frameLookup. rewrite Hnin. reflexivity.
Qed.

Lemma applyTEnv_frame : forall vars texps tenv v,
  applyTEnv (ExtendTEnv vars texps tenv) v =
  match indexOf v vars with
  | None => applyTEnv tenv v
  | Some pos =>
      match arrayAt texps pos with
      | Some te => makeOk te
      | None => makeFailure (Msg "undefined")
      end
  end.
Proof. reflexivity. Qed.

(** C3: [combineEnvs a b] returns the other environment when [a] or [b] is
    the terminal one.  Otherwise, with [b] the frame [vars], [texps]: it
    fails when some name of the frame stands with a type that contains that
    name as a type variable; when none does, it returns a new frame chained
    onto [a] whose names are those of [b]'s frame that [a] does not resolve,
    each with the type [b]'s frame gives it, so that a name [a] resolves
    keeps the type it has in [a]. *)
Theorem combineEnvs_policy : forall a b,
  wfTEnv a = true -> wfTEnv b = true ->
  (isEmptyTEnv a = true -> combineEnvs a b = Ok b) /\
  (isEmptyTEnv b = true -> combineEnvs a b = Ok a) /\
  (forall vars texps enclosing,
     isEmptyTEnv a = false -> b = ExtendTEnv vars texps enclosing ->
     ((exists v te, In (v, te) (combine vars texps) /\
                    isContainedTvar v te = true) ->
      isFailure (combineEnvs a b) = true) /\
     ((forall v te, In (v, te) (combine vars texps) ->
                    isContainedTvar v te = false) ->
      exists vars' texps',
        combineEnvs a b = Ok (ExtendTEnv vars' texps' a) /\
        vars' = filter (fun v => isFailure (applyTEnv a v)) vars /\
        List.length texps' = List.length vars' /\
        (forall v te,
           frameLookup vars' texps' v = Some te <->
           frameLookup vars texps v = Some te /\
           isFailure (applyTEnv a v) = true) /\
        (forall v te,
           applyTEnv a v = Ok te ->
           applyTEnv (ExtendTEnv vars' texps' a) v = Ok te))).
Proof.
  intros a b Hwfa Hwfb. split; [|split].
  - intros Ha. destruct a; [reflexivity | discriminate].
  - intros Hb. destruct b; [|discriminate]. destruct a; reflexivity.
  - intros vars texps enclosing Ha ->.
    destruct a as [|avars atexps atenv]; [discriminate|].
    simpl in Hwfb. apply andb_true_iff in Hwfb. destruct Hwfb as [Hlen _].
    apply Nat.eqb_eq in Hlen.
    set (a := ExtendTEnv avars atexps atenv) in *.
    simpl combineEnvs. fold a. unfold makeNewEnv. split.
    + intros [v [te [Hin Hc]]].
      assert (E : existsb (fun vt => isContainedTvar (fst vt) (snd vt))
                          (combine vars texps) = true).
      { apply existsb_exists. exists (v, te). auto. }
      rewrite E. reflexivity.
    + intros Hnone.
      assert (E : existsb (fun vt => isContainedTvar (fst vt) (snd vt))
                          (combine vars texps) = false).
      { apply not_true_is_false. intros E. apply existsb_exists in E.
        destruct E as [[v te] [Hin Hc]]. simpl in Hc.
        rewrite (Hnone v te Hin) in Hc. discriminate. }
      rewrite E.
      destruct (diffFrame_lookup (fun v => isFailure (applyTEnv a v))
                                 vars texps Hlen) as [Hl Hlook].
      eexists. eexists. split; [reflexivity|].
      split; [reflexivity|]. split; [exact Hl|]. split.
      * intros v te. rewrite Hlook.
        destruct (isFailure (applyTEnv a v)); split.
        -- intros H; auto.
        -- intros [H _]; exact H.
        -- discriminate.
        -- intros [_ H]; discriminate.
      * intros v te Hv. rewrite applyTEnv_frame.
        assert (Hnin : ~ In v (filter (fun v => isFailure (applyTEnv a v)) vars)).
        { intros Hin. apply filter_In in Hin. destruct Hin as [_ Hf].
          rewrite Hv in Hf. discriminate. }
        apply indexOf_None in Hnin. rewrite Hnin. exact Hv.
Qed.

(** Merging the frame [y : boolean, x : string] into an environment that
    binds [x] to [number], and a frame into the terminal environment. *)
Lemma combineEnvs_policy_witness :
  (exists vars' texps',
     combineEnvs (ExtendTEnv ["x"] [NumTExp] EmptyTEnv)
                 (ExtendTEnv ["y"; "x"] [BoolTExp; StrTExp] EmptyTEnv) =
     Ok (ExtendTEnv vars' texps' (ExtendTEnv ["x"] [NumTExp] EmptyTEnv)) /\
     vars' = ["y"]) /\
  combineEnvs EmptyTEnv (ExtendTEnv ["y"] [BoolTExp] EmptyTEnv) =
  Ok (ExtendTEnv ["y"] [BoolTExp] EmptyTEnv).
Proof.
  split.
  - destruct (proj2 (proj2 (proj2 (combineEnvs_policy
               (ExtendTEnv ["x"] [NumTExp] EmptyTEnv)
               (ExtendTEnv ["y"; "x"] [BoolTExp; StrTExp] EmptyTEnv)
               eq_refl eq_refl))
               ["y"; "x"] [BoolTExp; StrTExp] EmptyTEnv eq_refl eq_refl))
      as [vars' [texps' [H [Hvars _]]]].
    + intros v te Hin. simpl in Hin.
      destruct Hin as [Hin|[Hin|Hin]];
        [inversion Hin; reflexivity | inversion Hin; reflexivity | contradiction].
    + exists vars', texps'. split; [exact H | exact Hvars].
  - apply (proj1 (combineEnvs_policy EmptyTEnv
                    (ExtendTEnv ["y"] [BoolTExp] EmptyTEnv) eq_refl eq_refl)).
    reflexivity.
Defined.

(* ================================================================= *)
(** ** The sequence typer against its description *)

Lemma combineEnvs_fresh : forall env x te,
  isEmptyTEnv env ||
  (negb (isContainedTvar x te) && isFailure (applyTEnv env x)) = true ->
  combineEnvs env (makeExtendTEnv [x] [te] env) =
  Ok (makeExtendTEnv [x] [te] env).
Proof.
  intros env x te H. destruct env as [|vars texps tenv]; [reflexivity|].
  simpl in H. apply andb_true_iff in H. destruct H as [Hc Hf].
  apply negb_true_iff in Hc.
  unfold makeExtendTEnv. simpl combineEnvs. unfold makeNewEnv.
  simpl existsb. rewrite Hc. simpl orb. cbv iota.
  simpl filter. rewrite Hf. simpl. rewrite String.eqb_refl. reflexivity.
Qed.

(** A define of a name the environment already resolves leaves the forms
    after it with the bindings the environment had. *)
Lemma combineEnvs_rebound : forall vars texps tenv x te te0,
  isContainedTvar x te = false ->
  applyTEnv (ExtendTEnv vars texps tenv) x = Ok te0 ->
  combineEnvs (ExtendTEnv vars texps tenv)
              (makeExtendTEnv [x] [te] (ExtendTEnv vars texps tenv)) =
  Ok (ExtendTEnv [] [] (ExtendTEnv vars texps tenv)).
Proof.
  intros vars texps tenv x te te0 Hc Hx.
  unfold makeExtendTEnv. simpl combineEnvs. unfold makeNewEnv.
  cbn [combine existsb fst snd]. rewrite Hc. cbn [orb filter].
  rewrite Hx. reflexivity.
Qed.

Lemma typeOfSequence_sequenceSpec : forall seq env,
  lastIsDefine seq = false -> definesFresh seq env = true ->
  typeOfSequence seq env = sequenceSpec seq env.
Proof.
  induction seq as [|form rest IH]; intros env Hlast Hfresh; [reflexivity|].
  destruct (isDefineExp form) eqn:Hdef.
  - destruct form; try discriminate.
    destruct rest as [|form' rest]; [simpl in Hlast; discriminate|].
    simpl in Hfresh. apply andb_true_iff in Hfresh.
    destruct Hfresh as [Hx Hrest].
    rewrite typeOfSequence_define, typeofDefineExps_eq.
    rewrite (combineEnvs_fresh _ _ _ Hx).
    cbn [sequenceSpec typeofExp]. unfold typeofDefineWith.
    destruct (bind (typeofExp form env)
                   (fun valTE => checkEqualType (texp vd) valTE
                                                (DefineExp vd form)));
      [|reflexivity].
    simpl bind. apply IH; assumption.
  - destruct rest as [|form' rest].
    + rewrite typeOfSequence_last by assumption. reflexivity.
    + rewrite typeOfSequence_discard by (assumption || discriminate).
      assert (Hfresh' : definesFresh (form' :: rest) env = true)
        by (destruct form; try discriminate; exact Hfresh).
      assert (Hlast' : lastIsDefine (form' :: rest) = false) by exact Hlast.
      cbn [sequenceSpec].
      replace (match form with
               | DefineExp vd _ => makeExtendTEnv [var vd] [texp vd] env
               | _ => env
               end) with env by (destruct form; try reflexivity; discriminate).
      destruct (typeofExp form env); [|reflexivity].
      simpl. apply IH; assumption.
Qed.

Lemma combineEnvs_defineEnv : forall vd env,
  combineEnvs env (makeExtendTEnv [var vd] [texp vd] env) = defineEnv vd env.
Proof.
  intros vd env. unfold defineEnv.
  destruct env as [|vars texps tenv]; [reflexivity|].
  cbn [isEmptyTEnv].
  destruct (isContainedTvar (var vd) (texp vd)) eqn:Hc.
  - unfold makeExtendTEnv. simpl combineEnvs. unfold makeNewEnv.
    cbn [combine existsb fst snd]. rewrite Hc. reflexivity.
  - destruct (isFailure (applyTEnv (ExtendTEnv vars texps tenv) (var vd))) eqn:Hf.
    + apply combineEnvs_fresh. cbn [isEmptyTEnv orb]. rewrite Hc, Hf.
      reflexivity.
    + apply isFailure_false in Hf. destruct Hf as [te0 Hx].
      apply (combineEnvs_rebound _ _ _ _ _ te0 Hc Hx).
Qed.

Lemma typeOfSequence_sequenceAmended : forall seq env,
  lastIsDefine seq = false ->
  typeOfSequence seq env = sequenceAmended seq env.
Proof.
  induction seq as [|form rest IH]; intros env Hlast; [reflexivity|].
  destruct (isDefineExp form) eqn:Hdef.
  - destruct form; try discriminate.
    destruct rest as [|form' rest]; [simpl in Hlast; discriminate|].
    rewrite typeOfSequence_define, typeofDefineExps_eq.
    rewrite combineEnvs_defineEnv.
    cbn [sequenceAmended typeofExp]. unfold typeofDefineWith.
    destruct (bind (typeofExp form env)
                   (fun valTE => checkEqualType (texp vd) valTE
                                                (DefineExp vd form)));
      [|reflexivity].
    simpl bind. destruct (defineEnv vd env) as [env'|e]; [|reflexivity].
    simpl bind. apply IH. exact Hlast.
  - destruct rest as [|form' rest].
    + rewrite typeOfSequence_last by assumption. reflexivity.
    + rewrite typeOfSequence_discard by (assumption || discriminate).
      cbn [sequenceAmended].
      destruct (typeofExp form env); [|reflexivity].
      simpl bind. destruct form; try discriminate; apply IH; exact Hlast.
Qed.

(** C1, as stated, fails: the second define of [x] does not extend the
    environment seen by the last form, which is typed [number] from the
    first define; extending the environment, as the description has it,
    gives [boolean]. *)
Lemma typeOfSequence_redefinition :
  typeofParsed (PProgram (makeProgram redefineProgram)) makeEmptyTEnv =
  Ok NumTExp /\
  sequenceSpec redefineProgram makeEmptyTEnv = Ok BoolTExp.
Proof. split; reflexivity. Qed.

(** The program [(L5 (define (x : number) 5))]: its last form has type
    [Void], and the sequence typer fails on it. *)
Example typeOfSequence_trailing_define :
  typeofExp (DefineExp (makeVarDecl "x" NumTExp) (NumExp 5)) makeEmptyTEnv =
  Ok VoidTExp /\
  typeofParsed
    (PProgram (makeProgram [DefineExp (makeVarDecl "x" NumTExp) (NumExp 5)]))
    makeEmptyTEnv = Failure (Msg "Empty sequence").
Proof. split; reflexivity. Qed.

(** C1, amended: on a top-level sequence whose last form is not a define
    the sequence typer processes the forms left to right.  A define met
    before the end is checked, and the forms after it see the environment
    extended with the defined name when that environment is terminal or
    does not resolve the name, the environment with its earlier binding of
    the name when it resolves the name already, and nothing at all, the
    check failing, when the environment is not terminal and the declared
    type contains the defined name as a type variable.  Any other form is
    typed and its type dropped unless it is the last; the result is the
    type of the last form; the empty sequence fails.  On the program
    [(L5 (define (x : number) 5) (+ x 1))] the program entry point returns
    ["number"]. *)
Theorem typeOfSequence_left_to_right :
  (forall seq env,
     wfTEnv env = true -> lastIsDefine seq = false ->
     typeofParsed (PProgram (makeProgram seq)) env = sequenceAmended seq env) /\
  (forall env v,
     applyTEnv (makeExtendTEnv [] [] env) v = applyTEnv env v) /\
  (forall env,
     typeofParsed (PProgram (makeProgram [])) env =
     Failure (Msg "Empty sequence")) /\
  (forall p parseL5Program concreteExp,
     bind (p concreteExp) parseL5Program = Ok (makeProgram plusProgram) ->
     L5programTypeof p parseL5Program concreteExp = Ok "number").
Proof.
  split; [|split; [|split]].
  - intros seq env _ Hlast.
    apply typeOfSequence_sequenceAmended; assumption.
  - reflexivity.
  - reflexivity.
  - intros p parseL5Program concreteExp H. unfold L5programTypeof.
    destruct (p concreteExp) as [x|e]; simpl in *; [|discriminate].
    rewrite H. reflexivity.
Qed.

Lemma typeOfSequence_left_to_right_witness :
  typeofParsed (PProgram (makeProgram plusProgram)) makeEmptyTEnv =
  sequenceAmended plusProgram makeEmptyTEnv /\
  L5programTypeof plusReader plusProgramOf
                  "(L5 (define (x : number) 5) (+ x 1))" = Ok "number".
Proof.
  split.
  - apply (proj1 typeOfSequence_left_to_right plusProgram makeEmptyTEnv);
      reflexivity.
  - apply (proj2 (proj2 (proj2 typeOfSequence_left_to_right))
                 plusReader plusProgramOf
                 "(L5 (define (x : number) 5) (+ x 1))").
    reflexivity.
Defined.

(* ================================================================= *)
(** ** Typing depends on the environment through its lookups only *)

Lemma sameLookups_extend : forall vars texps env1 env2,
  sameLookups env1 env2 ->
  sameLookups (makeExtendTEnv vars texps env1) (makeExtendTEnv vars texps env2).
Proof.
  intros vars texps env1 env2 H v. unfold makeExtendTEnv.
  rewrite !applyTEnv_frame. destruct (indexOf v vars); [reflexivity | apply H].
Qed.

Lemma typeofExps_sameLookups : forall exps,
  Forall (fun e => forall env1 env2, sameLookups env1 env2 ->
                   typeofExp e env1 = typeofExp e env2) exps ->
  forall env1 env2, sameLookups env1 env2 ->
  typeofExps exps env1 = typeofExps exps env2.
Proof.
  induction 1 as [|e exps He Hall IH]; intros env1 env2 Hs; [reflexivity|].
  rewrite (typeofExps_eq (e :: exps) env1), (typeofExps_eq (e :: exps) env2).
  rewrite (He env1 env2 Hs). destruct exps as [|e' exps]; [reflexivity|].
  rewrite (IH env1 env2 Hs). reflexivity.
Qed.

Lemma appConstraints_sameLookups : forall app rands,
  Forall (fun e => forall env1 env2, sameLookups env1 env2 ->
                   typeofExp e env1 = typeofExp e env2) rands ->
  forall env1 env2 paramTEs, sameLookups env1 env2 ->
  zipWithResult (fun rand trand =>
      bind (typeofExp rand env1) (fun typeOfRand =>
        checkEqualType typeOfRand trand app)) rands paramTEs =
  zipWithResult (fun rand trand =>
      bind (typeofExp rand env2) (fun typeOfRand =>
        checkEqualType typeOfRand trand app)) rands paramTEs.
Proof.
  induction 1 as [|e rands He Hall IH]; intros env1 env2 ps Hs; [reflexivity|].
  destruct ps as [|trand ps]; [reflexivity|].
  cbn [zipWithResult]. rewrite (He env1 env2 Hs), (IH env1 env2 ps Hs).
  reflexivity.
Qed.

Lemma letConstraints_sameLookups : forall exp bs,
  Forall (fun b : VarDecl * Exp => forall env1 env2, sameLookups env1 env2 ->
            typeofExp (snd b) env1 = typeofExp (snd b) env2) bs ->
  forall env1 env2, sameLookups env1 env2 ->
  letConstraintsWith typeofExp exp env1 bs =
  letConstraintsWith typeofExp exp env2 bs.
Proof.
  induction 1 as [|b bs Hb Hall IH]; intros env1 env2 Hs; [reflexivity|].
  rewrite !letConstraintsWith_zip in *. cbn [map zipWithResult].
  rewrite (Hb env1 env2 Hs).
  specialize (IH env1 env2 Hs). rewrite !letConstraintsWith_zip in IH.
  rewrite IH. reflexivity.
Qed.

(** What the induction carries: the expression is typed alike, and so is
    every expression of its body when it is a procedure. *)
Definition sameTyping (e : Exp) : Prop :=
  forall env1 env2, sameLookups env1 env2 -> typeofExp e env1 = typeofExp e env2.

Lemma letrecTypes_sameLookups : forall bs,
  Forall (fun b : VarDecl * Exp =>
            sameTyping (snd b) /\ Forall sameTyping (procBody (snd b))) bs ->
  forall env1 env2, sameLookups env1 env2 ->
  letrecTypesWith typeofExp env1 bs = letrecTypesWith typeofExp env2 bs.
Proof.
  induction 1 as [|b bs Hb Hall IH]; intros env1 env2 Hs; [reflexivity|].
  specialize (IH env1 env2 Hs). rewrite !letrecTypesWith_zip in *.
  cbn [map zipWith zipWithResult]. rewrite IH. destruct Hb as [_ Hbody].
  rewrite (typeofExps_sameLookups (procBody (snd b)) Hbody
             (makeExtendTEnv (map var (procArgs (snd b)))
                             (map texp (procArgs (snd b))) env1)
             (makeExtendTEnv (map var (procArgs (snd b)))
                             (map texp (procArgs (snd b))) env2)
             (sameLookups_extend _ _ _ _ Hs)).
  reflexivity.
Qed.

Lemma sameTyping_all : forall e,
  sameTyping e /\ Forall sameTyping (procBody e).
Proof.
  induction e using Exp_nested_ind;
    try (split; [intros env1 env2 Hs; reflexivity | constructor]).
  - (* VarRef *) split; [|constructor]. intros env1 env2 Hs. apply Hs.
  - (* IfExp *) split; [|constructor]. intros env1 env2 Hs.
    destruct IHe1 as [H1 _], IHe2 as [H2 _], IHe3 as [H3 _].
    cbn [typeofExp]. unfold typeofIfWith.
    rewrite (H1 _ _ Hs), (H2 _ _ Hs), (H3 _ _ Hs). reflexivity.
  - (* ProcExp *)
    assert (Hbody : Forall sameTyping body).
    { eapply Forall_impl; [|exact H]. intros a [Ha _]. exact Ha. }
    split; [|exact Hbody]. intros env1 env2 Hs.
    cbn [typeofExp]. unfold typeofProcWith. fold (typeofExps body).
    rewrite (typeofExps_sameLookups body Hbody _ _
               (sameLookups_extend (map var args) (map texp args) _ _ Hs)).
    reflexivity.
  - (* AppExp *) split; [|constructor]. intros env1 env2 Hs.
    destruct IHe as [Hrator _].
    assert (Hrands : Forall sameTyping rands).
    { eapply Forall_impl; [|exact H]. intros a [Ha _]. exact Ha. }
    assert (Hgen : typeofAppGenericWith typeofExp e rands env1 =
                   typeofAppGenericWith typeofExp e rands env2).
    { unfold typeofAppGenericWith. rewrite (Hrator _ _ Hs).
      destruct (typeofExp e env2) as [ratorTE|err]; [|reflexivity].
      cbn [bind]. destruct ratorTE; try reflexivity.
      rewrite (appConstraints_sameLookups (AppExp e rands) rands Hrands
                 env1 env2 paramTEs Hs). reflexivity. }
    cbn [typeofExp]. unfold typeofAppWith.
    destruct e; try exact Hgen.
    destruct (String.eqb op "car");
      [| destruct (String.eqb op "cdr");
         [| destruct (String.eqb op "cons"); [| exact Hgen]]].
    + destruct rands as [|r0 [|r1 rest]]; try reflexivity.
      inversion Hrands as [|? ? H0 _]; subst. rewrite (H0 _ _ Hs). reflexivity.
    + destruct rands as [|r0 [|r1 rest]]; try reflexivity.
      inversion Hrands as [|? ? H0 _]; subst. rewrite (H0 _ _ Hs). reflexivity.
    + destruct rands as [|r0 [|r1 [|r2 rest]]]; try reflexivity.
      inversion Hrands as [|? ? H0 Hr]; subst.
      inversion Hr as [|? ? H1 _]; subst.
      rewrite (H0 _ _ Hs), (H1 _ _ Hs). reflexivity.
  - (* LetExp *) split; [|constructor]. intros env1 env2 Hs.
    assert (Hbs : Forall (fun b : VarDecl * Exp => sameTyping (snd b)) bindings).
    { eapply Forall_impl; [|exact H]. intros a [Ha _]. exact Ha. }
    assert (Hbody : Forall sameTyping body).
    { eapply Forall_impl; [|exact H0]. intros a [Ha _]. exact Ha. }
    cbn [typeofExp]. unfold typeofLetWith. fold (typeofExps body).
    rewrite (letConstraints_sameLookups (LetExp bindings body) bindings Hbs env1 env2 Hs).
    destruct (letConstraintsWith typeofExp (LetExp bindings body) env2 bindings);
      [|reflexivity].
    cbn [bind].
    apply (typeofExps_sameLookups body Hbody). apply sameLookups_extend, Hs.
  - (* LetrecExp *) split; [|constructor]. intros env1 env2 Hs.
    assert (Hbody : Forall sameTyping body).
    { eapply Forall_impl; [|exact H0]. intros a [Ha _]. exact Ha. }
    cbn [typeofExp]. unfold typeofLetrecWith. fold (typeofExps body).
    destruct (negb (allT isProcExp (map (fun b => snd b) bindings)));
      [reflexivity|].
    match goal with
    | |- context [letrecTypesWith typeofExp (makeExtendTEnv ?ps ?ts env1)] =>
        pose proof (sameLookups_extend ps ts _ _ Hs) as Hs';
        rewrite (letrecTypes_sameLookups bindings H _ _ Hs');
        destruct (bind (letrecTypesWith typeofExp (makeExtendTEnv ps ts env2)
                                        bindings) _); [|reflexivity];
        cbn [bind];
        apply (typeofExps_sameLookups body Hbody _ _ Hs')
    end.
  - (* DefineExp *) split; [|constructor]. intros env1 env2 Hs.
    destruct IHe as [Hval _].
    cbn [typeofExp]. unfold typeofDefineWith. rewrite (Hval _ _ Hs).
    reflexivity.
Qed.

(** X1: the type of an expression depends on the environment only through
    what [applyTEnv] answers: two environments that resolve every name alike
    give every expression the same result.  A frame without names is
    therefore transparent. *)
Theorem typeofExp_sameLookups : forall e env1 env2,
  sameLookups env1 env2 ->
  typeofExp e env1 = typeofExp e env2 /\
  typeofExp e (makeExtendTEnv [] [] env1) = typeofExp e env2.
Proof.
  intros e env1 env2 Hs. destruct (sameTyping_all e) as [H _]. split.
  - apply H, Hs.
  - apply H. intros v. unfold makeExtendTEnv. rewrite applyTEnv_frame.
    simpl. apply Hs.
Qed.

Lemma typeofExp_sameLookups_witness :
  typeofExp (AppExp (VarRef "f") [VarRef "x"])
    (ExtendTEnv ["x"; "f"] [NumTExp; ProcTExp [NumTExp] BoolTExp] EmptyTEnv) =
  typeofExp (AppExp (VarRef "f") [VarRef "x"])
    (ExtendTEnv ["f"] [ProcTExp [NumTExp] BoolTExp]
       (ExtendTEnv ["x"] [NumTExp] EmptyTEnv)).
Proof.
  apply (proj1 (typeofExp_sameLookups (AppExp (VarRef "f") [VarRef "x"])
    (ExtendTEnv ["x"; "f"] [NumTExp; ProcTExp [NumTExp] BoolTExp] EmptyTEnv)
    (ExtendTEnv ["f"] [ProcTExp [NumTExp] BoolTExp]
       (ExtendTEnv ["x"] [NumTExp] EmptyTEnv))
    ltac:(intros v; cbn [applyTEnv indexOf];
          destruct (String.eqb "x" v) eqn:Ex; destruct (String.eqb "f" v) eqn:Ef;
          cbn; try reflexivity;
          apply String.eqb_eq in Ex; apply String.eqb_eq in Ef; congruence))).
Defined.

(* ================================================================= *)
(** ** The rules of conditionals, bodies, procedures, let and letrec *)

(** X2: a conditional has type [t] exactly when its test has type
    [boolean] and both branches have type [t].  A failure of the test, or a
    test of another type, is what the conditional reports, whatever the
    branches give. *)
Theorem typeofIf_rule : forall test then_ alt tenv,
  (forall t,
     typeofExp (IfExp test then_ alt) tenv = Ok t <->
     typeofExp test tenv = Ok BoolTExp /\
     typeofExp then_ tenv = Ok t /\ typeofExp alt tenv = Ok t) /\
  (forall e,
     typeofExp test tenv = Failure e ->
     typeofExp (IfExp test then_ alt) tenv = Failure e) /\
  (forall testTE,
     typeofExp test tenv = Ok testTE -> testTE <> BoolTExp ->
     typeofExp (IfExp test then_ alt) tenv =
     Failure (IncompatibleTypes (texpText testTE) "boolean"
                                (IfExp test then_ alt))).
Proof.
  intros test then_ alt tenv. cbn [typeofExp]. unfold typeofIfWith.
  split; [|split].
  - intros t. split.
    + intros H. apply bind_Ok_inv in H. destruct H as [c1 [H1 H]].
      apply bind_Ok_inv in H1. destruct H1 as [testTE [Htest Hchk]].
      apply checkEqualType_Ok in Hchk. destruct Hchk as [-> _].
      apply bind_Ok_inv in H. destruct H as [c2 [H2 Hthen]].
      apply bind_Ok_inv in H2. destruct H2 as [thenTE [Hthen' H2]].
      apply bind_Ok_inv in H2. destruct H2 as [altTE [Halt Hchk]].
      apply checkEqualType_Ok in Hchk. destruct Hchk as [-> _].
      rewrite Hthen in Hthen'. inversion Hthen'; subst. auto.
    + intros [Htest [Hthen Halt]]. rewrite Htest, Hthen, Halt. cbn [bind].
      unfold makeBoolTExp. rewrite !checkEqualType_same. reflexivity.
  - intros e Htest. rewrite Htest. reflexivity.
  - intros testTE Htest Hne. rewrite Htest. cbn [bind].
    unfold makeBoolTExp. rewrite (checkEqualType_diff _ _ _ Hne). reflexivity.
Qed.

Lemma typeofIf_rule_witness :
  typeofExp (IfExp (BoolExp true) (NumExp 1) (NumExp 2)) makeEmptyTEnv =
  Ok NumTExp /\
  typeofExp (IfExp (NumExp 0) (VarRef "x") (NumExp 2)) makeEmptyTEnv =
  Failure (IncompatibleTypes "number" "boolean"
             (IfExp (NumExp 0) (VarRef "x") (NumExp 2))).
Proof.
  split.
  - apply (proj1 (typeofIf_rule (BoolExp true) (NumExp 1) (NumExp 2)
                                makeEmptyTEnv)).
    repeat split; reflexivity.
  - apply (proj2 (proj2 (typeofIf_rule (NumExp 0) (VarRef "x") (NumExp 2)
                                       makeEmptyTEnv)) NumTExp).
    + reflexivity.
    + discriminate.
Defined.

Lemma typeofExps_cons : forall e e' exps tenv,
  typeofExps (e :: e' :: exps) tenv =
  bind (typeofExp e tenv) (fun _ => typeofExps (e' :: exps) tenv).
Proof. reflexivity. Qed.

Lemma typeofExps_app_Ok : forall pre last tenv t,
  typeofExps (pre ++ [last]) tenv = Ok t <->
  Forall (fun e => exists t', typeofExp e tenv = Ok t') pre /\
  typeofExp last tenv = Ok t.
Proof.
  induction pre as [|e pre IH]; intros last tenv t.
  - simpl. split; [intros H; split; [constructor | exact H] | intros [_ H]; exact H].
  - assert (E : forall x, typeofExps ((e :: pre) ++ [x]) tenv =
                bind (typeofExp e tenv) (fun _ => typeofExps (pre ++ [x]) tenv)).
    { intros x. rewrite <- app_comm_cons.
      destruct (pre ++ [x]) as [|e' l] eqn:El;
        [apply app_eq_nil in El; destruct El; discriminate|].
      apply typeofExps_cons. }
    rewrite E. split.
    + intros H. apply bind_Ok_inv in H. destruct H as [t0 [He H]].
      apply IH in H. destruct H as [Hpre Hlast].
      split; [constructor; eauto | exact Hlast].
    + intros [Hpre Hlast]. inversion Hpre as [|? ? [t0 He] Hpre']; subst.
      rewrite He. cbn [bind]. apply IH. auto.
Qed.

(** X3: a body, a non-empty sequence of expressions typed in one
    environment, has the type of its last expression exactly when every
    expression before it has some type; the first expression that fails
    gives the failure of the body; the empty body fails. *)
Theorem typeofExps_rule : forall tenv,
  (forall pre last t,
     typeofExps (pre ++ [last]) tenv = Ok t <->
     Forall (fun e => exists t', typeofExp e tenv = Ok t') pre /\
     typeofExp last tenv = Ok t) /\
  (forall pre e rest err,
     Forall (fun e => exists t', typeofExp e tenv = Ok t') pre ->
     typeofExp e tenv = Failure err ->
     typeofExps (pre ++ e :: rest) tenv = Failure err) /\
  typeofExps [] tenv = Failure (Msg "Unexpected empty list of expressions").
Proof.
  intros tenv. split; [|split].
  - intros pre last t. apply typeofExps_app_Ok.
  - induction pre as [|e0 pre IH]; intros e rest err Hpre He.
    + simpl. rewrite typeofExps_eq. destruct rest; rewrite He; reflexivity.
    + inversion Hpre as [|? ? [t0 H0] Hpre']; subst.
      rewrite <- app_comm_cons.
      destruct (pre ++ e :: rest) as [|e' l] eqn:El;
        [apply app_eq_nil in El; destruct El; discriminate|].
      rewrite typeofExps_cons, H0. cbn [bind]. rewrite <- El.
      apply IH; assumption.
  - reflexivity.
Qed.

Lemma typeofExps_rule_witness :
  typeofExps ([NumExp 1; BoolExp true] ++ [StrExp "a"]) makeEmptyTEnv =
  Ok StrTExp /\
  typeofExps ([NumExp 1] ++ VarRef "x" :: [VarRef "y"]) makeEmptyTEnv =
  Failure (Msg "Type Variable not found x").
Proof.
  split.
  - apply (proj1 (typeofExps_rule makeEmptyTEnv)). split.
    + repeat constructor; eexists; reflexivity.
    + reflexivity.
  - apply (proj1 (proj2 (typeofExps_rule makeEmptyTEnv))).
    + repeat constructor. eexists; reflexivity.
    + reflexivity.
Defined.

Lemma typeofProc_Ok : forall args body returnTE tenv t,
  typeofExp (ProcExp args body returnTE) tenv = Ok t <->
  typeofExps body (makeExtendTEnv (map var args) (map texp args) tenv) =
  Ok returnTE /\
  t = ProcTExp (map texp args) returnTE.
Proof.
  intros args body returnTE tenv t. cbn [typeofExp]. unfold typeofProcWith.
  fold (typeofExps body). split.
  - intros H. apply bind_Ok_inv in H. destruct H as [c [Hc H]].
    apply bind_Ok_inv in Hc. destruct Hc as [bodyTE [Hbody Hchk]].
    apply checkEqualType_Ok in Hchk. destruct Hchk as [-> _].
    inversion H. auto.
  - intros [Hbody ->]. rewrite Hbody. cbn [bind].
    rewrite checkEqualType_same. reflexivity.
Qed.

(** X4: a procedure expression type-checks exactly when its body, typed
    with the parameters bound to their declared types over the enclosing
    environment, has the declared return type; its type is then the
    procedure type of the declared parameter types and return type. *)
Theorem typeofProc_rule : forall args body returnTE tenv t,
  typeofExp (ProcExp args body returnTE) tenv = Ok t <->
  typeofExps body (makeExtendTEnv (map var args) (map texp args) tenv) =
  Ok returnTE /\
  t = ProcTExp (map texp args) returnTE.
Proof.
  intros args body returnTE tenv t. cbn [typeofExp]. unfold typeofProcWith.
  fold (typeofExps body). split.
  - intros H. apply bind_Ok_inv in H. destruct H as [c [Hc H]].
    apply bind_Ok_inv in Hc. destruct Hc as [bodyTE [Hbody Hchk]].
    apply checkEqualType_Ok in Hchk. destruct Hchk as [-> _].
    inversion H. auto.
  - intros [Hbody ->]. rewrite Hbody. cbn [bind].
    rewrite checkEqualType_same. reflexivity.
Qed.

Lemma typeofProc_rule_witness :
  typeofExp (ProcExp [makeVarDecl "x" NumTExp] [VarRef "x"] NumTExp)
            makeEmptyTEnv = Ok (ProcTExp [NumTExp] NumTExp).
Proof.
  apply (proj2 (typeofProc_rule [makeVarDecl "x" NumTExp] [VarRef "x"] NumTExp
                                makeEmptyTEnv (ProcTExp [NumTExp] NumTExp))).
  split; reflexivity.
Defined.

Lemma letConstraints_Ok : forall exp tenv bs,
  (exists cs, letConstraintsWith typeofExp exp tenv bs = Ok cs) <->
  Forall (fun b : VarDecl * Exp => typeofExp (snd b) tenv = Ok (texp (fst b))) bs.
Proof.
  intros exp tenv. induction bs as [|b bs IH].
  - simpl. split; [constructor | eauto].
  - rewrite letConstraintsWith_zip. cbn [map zipWithResult].
    rewrite <- letConstraintsWith_zip. split.
    + intros [cs H]. apply bind_Ok_inv in H. destruct H as [c [Hc H]].
      apply bind_Ok_inv in Hc. destruct Hc as [t [Ht Hchk]].
      apply checkEqualType_Ok in Hchk. destruct Hchk as [<- _].
      apply bind_Ok_inv in H. destruct H as [cs' [Hcs' _]].
      constructor; [exact Ht | apply IH; eauto].
    + intros H. inversion H as [|? ? Hb Hbs]; subst.
      apply IH in Hbs. destruct Hbs as [cs' Hcs'].
      rewrite Hb. cbn [bind]. rewrite checkEqualType_same. cbn [bind].
      rewrite Hcs'. cbn [bind]. eauto.
Qed.

Lemma typeofLet_Ok : forall bindings body tenv t,
  typeofExp (LetExp bindings body) tenv = Ok t <->
  Forall (fun b : VarDecl * Exp => typeofExp (snd b) tenv = Ok (texp (fst b)))
         bindings /\
  typeofExps body
    (makeExtendTEnv (map (fun b => var (fst b)) bindings)
                    (map (fun b => texp (fst b)) bindings) tenv) = Ok t.
Proof.
  intros bindings body tenv t. cbn [typeofExp]. unfold typeofLetWith.
  fold (typeofExps body). split.
  - intros H. apply bind_Ok_inv in H. destruct H as [cs [Hcs H]].
    split; [|exact H]. apply (letConstraints_Ok (LetExp bindings body)). eauto.
  - intros [Hbs Hbody].
    apply (letConstraints_Ok (LetExp bindings body)) in Hbs.
    destruct Hbs as [cs Hcs]. rewrite Hcs. exact Hbody.
Qed.

(** X5: a let type-checks exactly when every bound value, typed in the
    environment of the let itself, has the declared type of its variable,
    and the body type-checks with all the variables bound at once over that
    environment; the type of the let is the type of its body. *)
Theorem typeofLet_rule : forall bindings body tenv t,
  typeofExp (LetExp bindings body) tenv = Ok t <->
  Forall (fun b : VarDecl * Exp => typeofExp (snd b) tenv = Ok (texp (fst b)))
         bindings /\
  typeofExps body
    (makeExtendTEnv (map (fun b => var (fst b)) bindings)
                    (map (fun b => texp (fst b)) bindings) tenv) = Ok t.
Proof.
  intros bindings body tenv t. cbn [typeofExp]. unfold typeofLetWith.
  fold (typeofExps body). split.
  - intros H. apply bind_Ok_inv in H. destruct H as [cs [Hcs H]].
    split; [|exact H]. apply (letConstraints_Ok (LetExp bindings body)). eauto.
  - intros [Hbs Hbody].
    apply (letConstraints_Ok (LetExp bindings body)) in Hbs.
    destruct Hbs as [cs Hcs]. rewrite Hcs. exact Hbody.
Qed.

Lemma typeofLet_rule_witness :
  typeofExp (LetExp [(makeVarDecl "x" NumTExp, NumExp 1);
                     (makeVarDecl "y" BoolTExp, BoolExp true)]
                    [VarRef "y"]) makeEmptyTEnv = Ok BoolTExp.
Proof.
  apply (proj2 (typeofLet_rule _ _ _ _)). split.
  - repeat constructor.
  - reflexivity.
Defined.

Lemma letrecTypesWith_cons : forall tenvBody b bs,
  letrecTypesWith typeofExp tenvBody (b :: bs) =
  bind (typeofExps (procBody (snd b))
          (makeExtendTEnv (map var (procArgs (snd b)))
                          (map texp (procArgs (snd b))) tenvBody))
       (fun t => bind (letrecTypesWith typeofExp tenvBody bs)
                      (fun ts => makeOk (t :: ts))).
Proof. intros tenvBody b bs. cbn. destruct (snd b); reflexivity. Qed.

Lemma letrec_procTypes : forall bindings : list (VarDecl * Exp),
  zipWith makeProcTExp
    (map (fun params => map texp params)
         (map procArgs (map (fun b => snd b) bindings)))
    (map procReturnTE (map (fun b => snd b) bindings)) =
  map (fun b => makeProcTExp (map texp (procArgs (snd b)))
                             (procReturnTE (snd b))) bindings.
Proof.
  induction bindings as [|b bs IH]; [reflexivity|].
  cbn [map zipWith]. rewrite IH. reflexivity.
Qed.

Lemma letrecConstraints_Ok : forall exp tenvBody bs,
  (exists cs,
     bind (letrecTypesWith typeofExp tenvBody bs) (fun types =>
       zipWithResult (fun typeI ti => checkEqualType typeI ti exp) types
                     (map procReturnTE (map (fun b => snd b) bs))) = Ok cs) <->
  Forall (fun b : VarDecl * Exp =>
            typeofExps (procBody (snd b))
              (makeExtendTEnv (map var (procArgs (snd b)))
                              (map texp (procArgs (snd b))) tenvBody) =
            Ok (procReturnTE (snd b))) bs.
Proof.
  intros exp tenvBody. induction bs as [|b bs IH].
  - simpl. split; [constructor | eauto].
  - rewrite letrecTypesWith_cons. cbn [map]. split.
    + intros [cs H]. apply bind_Ok_inv in H. destruct H as [types [Htypes H]].
      apply bind_Ok_inv in Htypes. destruct Htypes as [t [Ht Hts]].
      apply bind_Ok_inv in Hts. destruct Hts as [ts [Hts E]].
      inversion E; subst. cbn [zipWithResult] in H.
      apply bind_Ok_inv in H. destruct H as [c [Hchk H]].
      apply checkEqualType_Ok in Hchk. destruct Hchk as [-> _].
      apply bind_Ok_inv in H. destruct H as [cs' [Hcs' _]].
      constructor; [exact Ht|]. apply IH. exists cs'. rewrite Hts. exact Hcs'.
    + intros H. inversion H as [|? ? Hb Hbs]; subst.
      apply IH in Hbs. destruct Hbs as [cs' Hcs'].
      apply bind_Ok_inv in Hcs'. destruct Hcs' as [ts [Hts Hzip]].
      rewrite Hb, Hts. cbn [bind makeOk zipWithResult].
      rewrite checkEqualType_same. cbn [bind]. rewrite Hzip. cbn [bind]. eauto.
Qed.

(** X6: a letrec type-checks exactly when every bound value is a procedure
    expression, the body of each bound procedure, typed with its parameters
    over the environment that binds every name of the letrec to its
    annotated procedure type, has the declared return type, and the body of
    the letrec type-checks in that environment of the bound names; the type
    of the letrec is the type of its body. *)
Theorem typeofLetrec_rule : forall bindings body tenv t,
  typeofExp (LetrecExp bindings body) tenv = Ok t <->
  allT isProcExp (map (fun b => snd b) bindings) = true /\
  Forall (fun b : VarDecl * Exp =>
            typeofExps (procBody (snd b))
              (makeExtendTEnv (map var (procArgs (snd b)))
                              (map texp (procArgs (snd b)))
                              (letrecTEnvBody bindings tenv)) =
            Ok (procReturnTE (snd b))) bindings /\
  typeofExps body (letrecTEnvBody bindings tenv) = Ok t.
Proof.
  intros bindings body tenv t. cbn [typeofExp]. unfold typeofLetrecWith.
  fold (typeofExps body). rewrite letrec_procTypes.
  fold (letrecTEnvBody bindings tenv).
  destruct (allT isProcExp (map (fun b => snd b) bindings)); cbn [negb].
  - split.
    + intros H. apply bind_Ok_inv in H. destruct H as [cs [Hcs H]].
      split; [reflexivity|]. split; [|exact H].
      apply (letrecConstraints_Ok (LetrecExp bindings body)). eauto.
    + intros [_ [Hbs Hbody]].
      apply (letrecConstraints_Ok (LetrecExp bindings body)) in Hbs.
      destruct Hbs as [cs Hcs]. rewrite Hcs. exact Hbody.
  - split; [discriminate | intros [H _]; discriminate].
Qed.

(** A letrec that binds [f] to a procedure calling itself. *)
Lemma typeofLetrec_rule_witness :
  typeofExp
    (LetrecExp
       [(makeVarDecl "f" (ProcTExp [NumTExp] NumTExp),
         ProcExp [makeVarDecl "n" NumTExp]
                 [AppExp (VarRef "f") [VarRef "n"]] NumTExp)]
       [AppExp (VarRef "f") [NumExp 1]]) makeEmptyTEnv = Ok NumTExp.
Proof.
  apply (proj2 (typeofLetrec_rule _ _ _ _)). split; [reflexivity|]. split.
  - repeat constructor.
  - reflexivity.
Defined.

(** X7: a procedure, a let and a letrec with an empty body fail, whatever
    their parameters, bindings and environment. *)
Theorem empty_body_fails :
  (forall args returnTE tenv,
     typeofExp (ProcExp args [] returnTE) tenv =
     Failure (Msg "Unexpected empty list of expressions")) /\
  (forall bindings tenv,
     isFailure (typeofExp (LetExp bindings []) tenv) = true) /\
  (forall bindings tenv,
     isFailure (typeofExp (LetrecExp bindings []) tenv) = true).
Proof.
  split; [|split].
  - reflexivity.
  - intros bindings tenv. cbn [typeofExp]. unfold typeofLetWith.
    apply isFailure_bind_r. intros _. reflexivity.
  - intros bindings tenv. cbn [typeofExp]. unfold typeofLetrecWith.
    destruct (negb (allT isProcExp (map (fun b => snd b) bindings)));
      [reflexivity|].
    apply isFailure_bind_r. intros _. reflexivity.
Qed.

(* ================================================================= *)
(** ** Lookup in type environments *)

Lemma indexOf_existsb : forall v vars,
  existsb (fun x => String.eqb x v) vars = true <->
  exists pos, indexOf v vars = Some pos.
Proof.
  intros v. induction vars as [|x vars IH]; simpl.
  - split; [discriminate | intros [pos H]; discriminate].
  - destruct (String.eqb x v); simpl; [split; eauto|].
    rewrite IH. split.
    + intros [pos H]. rewrite H. eauto.
    + intros [pos H]. destruct (indexOf v vars); [eauto | discriminate].
Qed.

(** X8: in an environment whose frames have as many types as names, a name
    resolves exactly when some frame names it; a name that no frame names
    gives the failure that reports the name. *)
Theorem applyTEnv_bound : forall tenv v,
  wfTEnv tenv = true ->
  (boundIn v tenv = true -> exists te, applyTEnv tenv v = Ok te) /\
  (boundIn v tenv = false ->
   applyTEnv tenv v = Failure (Msg ("Type Variable not found " ++ v))).
Proof.
  induction tenv as [|vars texps tenv IH]; intros v Hwf.
  - split; [discriminate | reflexivity].
  - simpl in Hwf. apply andb_true_iff in Hwf. destruct Hwf as [Hlen Hwf].
    apply Nat.eqb_eq in Hlen. specialize (IH v Hwf).
    cbn [boundIn]. rewrite applyTEnv_frame.
    destruct (existsb (fun x => String.eqb x v) vars) eqn:E; cbn [orb].
    + split; [|discriminate]. intros _.
      apply indexOf_existsb in E. destruct E as [pos Hpos]. rewrite Hpos.
      pose proof (indexOf_Some _ _ _ Hpos) as Hnth.
      assert (Hlt : pos < List.length texps).
      { rewrite <- Hlen. apply nth_error_Some. congruence. }
      unfold arrayAt. destruct (nth_error texps pos) eqn:N; [eauto|].
      apply nth_error_None in N. lia.
    + assert (Hnone : indexOf v vars = None).
      { destruct (indexOf v vars) eqn:I; [|reflexivity].
        assert (existsb (fun x => String.eqb x v) vars = true)
          by (apply indexOf_existsb; eauto).
        congruence. }
      rewrite Hnone. exact IH.
Qed.

Lemma applyTEnv_bound_witness :
  applyTEnv (ExtendTEnv ["x"] [NumTExp] (ExtendTEnv ["y"] [BoolTExp] EmptyTEnv))
            "z" = Failure (Msg "Type Variable not found z") /\
  exists te,
    applyTEnv (ExtendTEnv ["x"] [NumTExp] (ExtendTEnv ["y"] [BoolTExp] EmptyTEnv))
              "y" = Ok te.
Proof.
  split.
  - apply (proj2 (applyTEnv_bound
      (ExtendTEnv ["x"] [NumTExp] (ExtendTEnv ["y"] [BoolTExp] EmptyTEnv))
      "z" eq_refl)).
    reflexivity.
  - apply (proj1 (applyTEnv_bound
      (ExtendTEnv ["x"] [NumTExp] (ExtendTEnv ["y"] [BoolTExp] EmptyTEnv))
      "y" eq_refl)).
    reflexivity.
Defined.

Lemma indexOf_first : forall v pre post,
  ~ In v pre -> indexOf v (pre ++ v :: post) = Some (List.length pre).
Proof.
  intros v. induction pre as [|x pre IH]; intros post Hnin; simpl.
  - rewrite String.eqb_refl. reflexivity.
  - destruct (String.eqb x v) eqn:E.
    + apply String.eqb_eq in E. exfalso. apply Hnin. left. exact E.
    + rewrite IH; [reflexivity|]. intros H. apply Hnin. right. exact H.
Qed.

(** X9: in the frame built from a list of declarations, as for the
    parameters of a procedure, the first declaration of a name gives the
    name its type, before any later declaration of that name and before the
    enclosing environment; a name the frame does not declare is resolved by
    the enclosing environment. *)
Theorem applyTEnv_declarations : forall pre vd post tenv,
  (forall d, In d pre -> var d <> var vd) ->
  applyTEnv (makeExtendTEnv (map var (pre ++ vd :: post))
                            (map texp (pre ++ vd :: post)) tenv) (var vd) =
  Ok (texp vd) /\
  (forall decls v,
     (forall d, In d decls -> var d <> v) ->
     applyTEnv (makeExtendTEnv (map var decls) (map texp decls) tenv) v =
     applyTEnv tenv v).
Proof.
  intros pre vd post tenv Hpre. split.
  - unfold makeExtendTEnv. rewrite applyTEnv_frame.
    rewrite !map_app. cbn [map].
    rewrite indexOf_first.
    + unfold arrayAt. rewrite length_map.
      rewrite nth_error_app2 by (rewrite length_map; lia).
      rewrite length_map, Nat.sub_diag. reflexivity.
    + intros Hin. apply in_map_iff in Hin. destruct Hin as [d [Hd Hin]].
      exact (Hpre d Hin Hd).
  - intros decls v Hnone. unfold makeExtendTEnv. rewrite applyTEnv_frame.
    assert (Hnin : ~ In v (map var decls)).
    { intros Hin. apply in_map_iff in Hin. destruct Hin as [d [Hd Hin]].
      exact (Hnone d Hin Hd). }
    apply indexOf_None in Hnin. rewrite Hnin. reflexivity.
Qed.

(** The parameters [(x : number) (y : boolean) (x : string)] over an
    environment that binds [y] to [string]. *)
Lemma applyTEnv_declarations_witness :
  applyTEnv
    (makeExtendTEnv
       (map var ([makeVarDecl "x" NumTExp] ++
                 makeVarDecl "y" BoolTExp :: [makeVarDecl "x" StrTExp]))
       (map texp ([makeVarDecl "x" NumTExp] ++
                  makeVarDecl "y" BoolTExp :: [makeVarDecl "x" StrTExp]))
       (ExtendTEnv ["y"] [StrTExp] EmptyTEnv)) "y" = Ok BoolTExp.
Proof.
  apply (proj1 (applyTEnv_declarations [makeVarDecl "x" NumTExp]
                  (makeVarDecl "y" BoolTExp) [makeVarDecl "x" StrTExp]
                  (ExtendTEnv ["y"] [StrTExp] EmptyTEnv)
                  ltac:(intros d [<-|[]]; discriminate))).
Defined.

(* ================================================================= *)
(** ** What merging keeps *)

(** X10: merging keeps the invariant of frames: when both environments
    have as many types as names in every frame, so has the environment
    [combineEnvs] returns. *)
Theorem combineEnvs_wf : forall a b c,
  wfTEnv a = true -> wfTEnv b = true ->
  combineEnvs a b = Ok c -> wfTEnv c = true.
Proof.
  intros a b c Hwfa Hwfb H.
  destruct a as [|avars atexps atenv]; [inversion H; subst; exact Hwfb|].
  destruct b as [|vars texps enclosing]; [inversion H; subst; exact Hwfa|].
  simpl combineEnvs in H. unfold makeNewEnv in H.
  destruct (existsb _ (combine vars texps)); [discriminate|].
  inversion H; subst. clear H.
  simpl in Hwfb. apply andb_true_iff in Hwfb. destruct Hwfb as [Hlen _].
  apply Nat.eqb_eq in Hlen.
  destruct (diffFrame_lookup
              (fun v => isFailure (applyTEnv (ExtendTEnv avars atexps atenv) v))
              vars texps Hlen) as [Hl _].
  unfold makeExtendTEnv. cbn [wfTEnv].
  apply andb_true_iff. split; [|exact Hwfa].
  apply Nat.eqb_eq. symmetry. exact Hl.
Qed.

Lemma combineEnvs_wf_witness :
  wfTEnv (ExtendTEnv ["y"] [BoolTExp] (ExtendTEnv ["x"] [NumTExp] EmptyTEnv))
  = true.
Proof.
  apply (combineEnvs_wf (ExtendTEnv ["x"] [NumTExp] EmptyTEnv)
           (ExtendTEnv ["y"; "x"] [BoolTExp; StrTExp] EmptyTEnv)
           (ExtendTEnv ["y"] [BoolTExp] (ExtendTEnv ["x"] [NumTExp] EmptyTEnv)));
    reflexivity.
Defined.

Lemma applyTEnv_frameLookup : forall vars texps tenv v,
  applyTEnv (ExtendTEnv vars texps tenv) v =
  match indexOf v vars with
  | None => applyTEnv tenv v
  | Some _ =>
      match frameLookup vars texps v with
      | Some te => makeOk te
      | None => makeFailure (Msg "undefined")
      end
  end.
Proof.
  intros vars texps tenv v. rewrite applyTEnv_frame. unfold frameLookup.
  destruct (indexOf v vars); reflexivity.
Qed.

(** X11: after a merge of a frame into an environment that is not
    terminal, a name resolves exactly when the environment resolved it or
    the frame names it; the enclosing environment of the merged frame adds
    no name. *)
Theorem combineEnvs_resolves : forall a vars texps enclosing c v,
  wfTEnv (ExtendTEnv vars texps enclosing) = true ->
  isEmptyTEnv a = false ->
  combineEnvs a (ExtendTEnv vars texps enclosing) = Ok c ->
  ((exists te, applyTEnv c v = Ok te) <->
   (exists te, applyTEnv a v = Ok te) \/ In v vars).
Proof.
  intros a vars texps enclosing c v Hwfb Ha H.
  simpl in Hwfb. apply andb_true_iff in Hwfb. destruct Hwfb as [Hlen _].
  apply Nat.eqb_eq in Hlen.
  pose proof (diffFrame_lookup (fun v => isFailure (applyTEnv a v))
                               vars texps Hlen) as Hdiff.
  cbv zeta in Hdiff. destruct Hdiff as [_ Hlook]. specialize (Hlook v).
  assert (Hc : applyTEnv c v =
               applyTEnv
                 (ExtendTEnv
                    (filter (fun v => isFailure (applyTEnv a v)) vars)
                    (flat_map
                       (fun v =>
                          match indexOf v vars with
                          | Some pos =>
                              match arrayAt texps pos with
                              | Some te => [te]
                              | None => []
                              end
                          | None => []
                          end)
                       (filter (fun v => isFailure (applyTEnv a v)) vars))
                    a) v).
  { destruct a as [|avars atexps atenv]; [discriminate|].
    simpl combineEnvs in H. unfold makeNewEnv in H.
    destruct (existsb _ (combine vars texps)); [discriminate|].
    inversion H. reflexivity. }
  rewrite Hc, applyTEnv_frameLookup, Hlook. clear Hc Hlook H.
  destruct (isFailure (applyTEnv a v)) eqn:Hf.
  - apply isFailure_true in Hf. destruct Hf as [err Herr].
    destruct (in_dec string_dec v vars) as [Hin|Hnin].
    + destruct (frameLookup_In vars texps v Hlen Hin) as [te Hte].
      rewrite Hte.
      assert (Hsome : exists pos,
                indexOf v (filter (fun v => isFailure (applyTEnv a v)) vars)
                = Some pos).
      { destruct (indexOf v (filter (fun v => isFailure (applyTEnv a v)) vars))
          as [pos|] eqn:I; [eauto|].
        apply indexOf_None in I. exfalso. apply I. apply filter_In.
        split; [exact Hin|]. rewrite Herr. reflexivity. }
      destruct Hsome as [pos Hpos]. rewrite Hpos.
      split; [intros _; right; exact Hin | eauto].
    + assert (Hnone : indexOf v (filter (fun v => isFailure (applyTEnv a v))
                                        vars) = None).
      { apply indexOf_None. intros Hin. apply filter_In in Hin. tauto. }
      rewrite Hnone, Herr. split.
      * intros [te Hte]. discriminate.
      * intros [[te Hte]|Hin]; [discriminate | contradiction].
  - apply isFailure_false in Hf. destruct Hf as [te Hte].
    assert (Hnone : indexOf v (filter (fun v => isFailure (applyTEnv a v))
                                      vars) = None).
    { apply indexOf_None. intros Hin. apply filter_In in Hin.
      destruct Hin as [_ Hk]. rewrite Hte in Hk. discriminate. }
    rewrite Hnone. split; eauto.
Qed.

(** The frame [y : boolean] over an environment that binds [z], merged
    into an environment that binds [x]: [z] does not resolve afterwards. *)
Lemma combineEnvs_resolves_witness :
  ~ (exists te,
       applyTEnv (ExtendTEnv ["y"] [BoolTExp] (ExtendTEnv ["x"] [NumTExp] EmptyTEnv))
                 "z" = Ok te).
Proof.
  intros H.
  apply (proj1 (combineEnvs_resolves
           (ExtendTEnv ["x"] [NumTExp] EmptyTEnv) ["y"] [BoolTExp]
           (ExtendTEnv ["z"] [StrTExp] EmptyTEnv)
           (ExtendTEnv ["y"] [BoolTExp] (ExtendTEnv ["x"] [NumTExp] EmptyTEnv))
           "z" eq_refl eq_refl eq_refl)) in H.
  destruct H as [[te H]|[H|[]]]; discriminate.
Defined.

(* ================================================================= *)
(** ** Primitive operators *)

(** X12: [typeofPrim] gives a type to the twenty-three operators it lists
    and to no other; the type of each is a procedure type; any other
    operator is reported as not supported. *)
Theorem typeofPrim_supported : forall op tenv,
  (In op supportedPrimOps <-> exists te, typeofExp (PrimOp op) tenv = Ok te) /\
  (forall te, typeofExp (PrimOp op) tenv = Ok te -> isProcTExp te = true) /\
  (~ In op supportedPrimOps ->
   typeofExp (PrimOp op) tenv = Failure (Msg "Operator not supported")).
Proof.
  intros op tenv. cbn [typeofExp].
  assert (Hcases : (In op supportedPrimOps /\
                    exists te, typeofPrim op = Ok te /\ isProcTExp te = true) \/
                   (~ In op supportedPrimOps /\
                    typeofPrim op = Failure (Msg "Operator not supported"))).
  { unfold typeofPrim.
    repeat match goal with
    | |- context [String.eqb op ?s] =>
        let E := fresh "E" in
        destruct (String.eqb op s) eqn:E;
        [ apply String.eqb_eq in E; subst op; left;
          split; [simpl; tauto | eexists; split; reflexivity] | ]
    end.
    right. split; [|reflexivity].
    intros Hin. simpl in Hin.
    repeat (destruct Hin as [Hin|Hin];
            [subst op; rewrite String.eqb_refl in *; discriminate|]).
    contradiction. }
  destruct Hcases as [[Hin [te [Hte Hproc]]]|[Hnin Hfail]].
  - split; [|split].
    + split; eauto.
    + intros te' H. rewrite Hte in H. inversion H; subst. exact Hproc.
    + intros Hnin. contradiction.
  - split; [|split].
    + split; [contradiction|]. intros [te H]. rewrite Hfail in H. discriminate.
    + intros te H. rewrite Hfail in H. discriminate.
    + intros _. exact Hfail.
Qed.

Lemma typeofPrim_supported_witness :
  typeofExp (PrimOp "list") makeEmptyTEnv =
  Failure (Msg "Operator not supported").
Proof.
  apply (proj2 (proj2 (typeofPrim_supported "list" makeEmptyTEnv))).
  intros H. simpl in H.
  repeat (destruct H as [H|H]; [discriminate|]). contradiction.
Defined.

Lemma typeofApp_by_signature : forall op paramTEs returnTE rands tenv t,
  isBespokePrim (PrimOp op) = false ->
  typeofPrim op = Ok (ProcTExp paramTEs returnTE) ->
  (typeofExp (AppExp (PrimOp op) rands) tenv = Ok t <->
   List.length rands = List.length paramTEs /\
   Forall2 (fun rand trand => typeofExp rand tenv = Ok trand) rands paramTEs /\
   t = returnTE).
Proof.
  intros op paramTEs returnTE rands tenv t Hgen Hop.
  rewrite (typeofApp_generic (PrimOp op) rands tenv Hgen).
  rewrite typeofAppGeneric_Ok. cbn [typeofExp]. rewrite Hop. split.
  - intros [ps [E [Hlen Hall]]]. inversion E; subst. auto.
  - intros [Hlen [Hall ->]]. exists paramTEs. auto.
Qed.

(** X13: an application of an arithmetic operator, a comparison or a
    boolean connective type-checks exactly when it has two arguments, both
    of the operand type of the operator ([number], and [boolean] for [and]
    and [or]); its type is the result type of the operator. *)
Theorem typeofApp_binary : forall op operandTE resultTE rands tenv t,
  In (op, (operandTE, resultTE)) binaryPrimOps ->
  (typeofExp (AppExp (PrimOp op) rands) tenv = Ok t <->
   exists rand1 rand2,
     rands = [rand1; rand2] /\
     typeofExp rand1 tenv = Ok operandTE /\
     typeofExp rand2 tenv = Ok operandTE /\
     t = resultTE).
Proof.
  intros op operandTE resultTE rands tenv t Hin.
  assert (H : isBespokePrim (PrimOp op) = false /\
              typeofPrim op = Ok (ProcTExp [operandTE; operandTE] resultTE)).
  { simpl in Hin.
    repeat (destruct Hin as [Hin|Hin];
            [inversion Hin; subst; split; reflexivity|]).
    contradiction. }
  destruct H as [Hgen Hop].
  rewrite (typeofApp_by_signature op _ _ rands tenv t Hgen Hop). split.
  - intros [Hlen [Hall ->]].
    inversion Hall as [|r1 p1 rs1 ps1 H1 Hall1]; subst.
    inversion Hall1 as [|r2 p2 rs2 ps2 H2 Hall2]; subst.
    inversion Hall2; subst. exists r1, r2. auto.
  - intros [rand1 [rand2 [-> [H1 [H2 ->]]]]].
    split; [reflexivity|]. split; [|reflexivity].
    constructor; [exact H1|]. constructor; [exact H2 | constructor].
Qed.

Lemma typeofApp_binary_witness :
  typeofExp (AppExp (PrimOp "<") [NumExp 1; NumExp 2]) makeEmptyTEnv =
  Ok BoolTExp.
Proof.
  apply (proj2 (typeofApp_binary "<" NumTExp BoolTExp [NumExp 1; NumExp 2]
                  makeEmptyTEnv BoolTExp ltac:(simpl; tauto))).
  exists (NumExp 1), (NumExp 2). repeat split; reflexivity.
Defined.

(** X14: an application of one of the predicates [number?], [boolean?],
    [string?], [list?], [pair?], [symbol?] type-checks exactly when it has
    one argument whose type is the type variable [T] itself; applied to an
    argument of any other type, a number for one, it fails. *)
Theorem typeofApp_predicate : forall op rands tenv,
  In op unaryPredicates ->
  (forall t,
     typeofExp (AppExp (PrimOp op) rands) tenv = Ok t <->
     exists rand,
       rands = [rand] /\ typeofExp rand tenv = Ok (TVar "T") /\ t = BoolTExp) /\
  (forall rand randTE,
     rands = [rand] -> typeofExp rand tenv = Ok randTE -> randTE <> TVar "T" ->
     isFailure (typeofExp (AppExp (PrimOp op) rands) tenv) = true).
Proof.
  intros op rands tenv Hin.
  assert (H : isBespokePrim (PrimOp op) = false /\
              typeofPrim op = Ok (ProcTExp [TVar "T"] BoolTExp)).
  { simpl in Hin.
    repeat (destruct Hin as [Hin|Hin]; [subst; split; reflexivity|]).
    contradiction. }
  destruct H as [Hgen Hop].
  assert (Hrule : forall t,
     typeofExp (AppExp (PrimOp op) rands) tenv = Ok t <->
     exists rand,
       rands = [rand] /\ typeofExp rand tenv = Ok (TVar "T") /\ t = BoolTExp).
  { intros t.
    rewrite (typeofApp_by_signature op _ _ rands tenv t Hgen Hop). split.
    - intros [Hlen [Hall ->]].
      inversion Hall as [|r1 p1 rs1 ps1 H1 Hall1]; subst.
      inversion Hall1; subst. exists r1. auto.
    - intros [rand [-> [H1 ->]]].
      split; [reflexivity|]. split; [|reflexivity].
      constructor; [exact H1 | constructor]. }
  split; [exact Hrule|].
  intros rand randTE -> Hrand Hne.
  destruct (result_cases _ (typeofExp (AppExp (PrimOp op) [rand]) tenv))
    as [[t Ht]|[e He]]; [|rewrite He; reflexivity].
  apply Hrule in Ht. destruct Ht as [rand' [E [Hrand' _]]].
  inversion E; subst. rewrite Hrand in Hrand'. inversion Hrand'. contradiction.
Qed.

(** [(number? 5)]. *)
Lemma typeofApp_predicate_witness :
  isFailure (typeofExp (AppExp (PrimOp "number?") [NumExp 5]) makeEmptyTEnv)
  = true.
Proof.
  apply (proj2 (typeofApp_predicate "number?" [NumExp 5] makeEmptyTEnv
                  ltac:(simpl; tauto)) (NumExp 5) NumTExp).
  - reflexivity.
  - reflexivity.
  - discriminate.
Defined.

(** X15: taking the first or the second component of a pair built in
    place gives the type of the corresponding argument of [cons], provided
    the other argument has a type too. *)
Theorem typeofApp_car_of_cons : forall rand1 rand2 tenv t,
  (typeofExp (AppExp (PrimOp "car") [AppExp (PrimOp "cons") [rand1; rand2]])
             tenv = Ok t <->
   typeofExp rand1 tenv = Ok t /\ exists t2, typeofExp rand2 tenv = Ok t2) /\
  (typeofExp (AppExp (PrimOp "cdr") [AppExp (PrimOp "cons") [rand1; rand2]])
             tenv = Ok t <->
   typeofExp rand2 tenv = Ok t /\ exists t1, typeofExp rand1 tenv = Ok t1).
Proof.
  intros rand1 rand2 tenv t.
  assert (Hcons : typeofExp (AppExp (PrimOp "cons") [rand1; rand2]) tenv =
                  bind (typeofExp rand1 tenv) (fun t1 =>
                    bind (typeofExp rand2 tenv) (fun t2 =>
                      makeOk (makePairTExp t1 t2)))) by reflexivity.
  assert (Hcar : forall e,
            typeofExp (AppExp (PrimOp "car") [e]) tenv =
            bind (typeofExp e tenv) (fun pair =>
              match pair with
              | PairTExp first _ => makeOk first
              | _ => makeFailure (Msg "cdr expected a pair")
              end)) by reflexivity.
  assert (Hcdr : forall e,
            typeofExp (AppExp (PrimOp "cdr") [e]) tenv =
            bind (typeofExp e tenv) (fun pair =>
              match pair with
              | PairTExp _ second => makeOk second
              | _ => makeFailure (Msg "cdr expected a pair")
              end)) by reflexivity.
  rewrite Hcar, Hcdr, Hcons.
  split; split.
  - intros H. destruct (typeofExp rand1 tenv) as [t1|]; [|discriminate].
    destruct (typeofExp rand2 tenv) as [t2|]; [|discriminate].
    cbn in H. inversion H; subst. eauto.
  - intros [H1 [t2 H2]]. rewrite H1, H2. reflexivity.
  - intros H. destruct (typeofExp rand1 tenv) as [t1|]; [|discriminate].
    destruct (typeofExp rand2 tenv) as [t2|]; [|discriminate].
    cbn in H. inversion H; subst. eauto.
  - intros [H2 [t1 H1]]. rewrite H1, H2. reflexivity.
Qed.

Lemma typeofApp_car_of_cons_witness :
  typeofExp (AppExp (PrimOp "cdr") [AppExp (PrimOp "cons")
                                      [NumExp 1; StrExp "a"]])
            makeEmptyTEnv = Ok StrTExp.
Proof.
  apply (proj2 (proj2 (typeofApp_car_of_cons (NumExp 1) (StrExp "a")
                         makeEmptyTEnv StrTExp))).
  split; [reflexivity | eexists; reflexivity].
Defined.

(* ================================================================= *)
(** ** Sequences without a define, and with new names only *)

(** X16: on a non-empty sequence without a define the sequence typer of
    programs and the typer of bodies agree. *)
Theorem typeOfSequence_noDefine : forall seq env,
  seq <> [] -> noDefine seq = true ->
  typeOfSequence seq env = typeofExps seq env.
Proof.
  induction seq as [|form rest IH]; intros env Hne Hno; [contradiction|].
  unfold noDefine in Hno. cbn [forallb] in Hno.
  apply andb_true_iff in Hno. destruct Hno as [Hform Hrest].
  apply negb_true_iff in Hform.
  destruct rest as [|form' rest].
  - rewrite typeOfSequence_last by exact Hform. reflexivity.
  - rewrite typeOfSequence_discard by (exact Hform || discriminate).
    rewrite typeofExps_cons.
    destruct (typeofExp form env); [|reflexivity].
    cbn [bind]. apply IH; [discriminate | exact Hrest].
Qed.

Lemma typeOfSequence_noDefine_witness :
  typeOfSequence [NumExp 1; BoolExp true] makeEmptyTEnv =
  typeofExps [NumExp 1; BoolExp true] makeEmptyTEnv.
Proof.
  apply typeOfSequence_noDefine; [discriminate | reflexivity].
Defined.

(** X17: when the last form is not a define and every define meets an
    environment that is terminal, or that does not resolve the defined name
    while the declared type does not contain that name as a type variable,
    merging is plain extension: the sequence typer gives what typing each
    form in turn gives, every define extending the environment of the forms
    after it. *)
Theorem typeOfSequence_new_names : forall seq env,
  lastIsDefine seq = false -> definesFresh seq env = true ->
  typeOfSequence seq env = sequenceSpec seq env.
Proof.
  induction seq as [|form rest IH]; intros env Hlast Hfresh; [reflexivity|].
  destruct (isDefineExp form) eqn:Hdef.
  - destruct form; try discriminate.
    destruct rest as [|form' rest]; [simpl in Hlast; discriminate|].
    simpl in Hfresh. apply andb_true_iff in Hfresh.
    destruct Hfresh as [Hx Hrest].
    rewrite typeOfSequence_define, typeofDefineExps_eq.
    rewrite (combineEnvs_fresh _ _ _ Hx).
    cbn [sequenceSpec typeofExp]. unfold typeofDefineWith.
    destruct (bind (typeofExp form env)
                   (fun valTE => checkEqualType (texp vd) valTE
                                                (DefineExp vd form)));
      [|reflexivity].
    simpl bind. apply IH; assumption.
  - destruct rest as [|form' rest].
    + rewrite typeOfSequence_last by assumption. reflexivity.
    + rewrite typeOfSequence_discard by (assumption || discriminate).
      assert (Hfresh' : definesFresh (form' :: rest) env = true)
        by (destruct form; try discriminate; exact Hfresh).
      assert (Hlast' : lastIsDefine (form' :: rest) = false) by exact Hlast.
      cbn [sequenceSpec].
      replace (match form with
               | DefineExp vd _ => makeExtendTEnv [var vd] [texp vd] env
               | _ => env
               end) with env by (destruct form; try reflexivity; discriminate).
      destruct (typeofExp form env); [|reflexivity].
      simpl. apply IH; assumption.
Qed.

(** [(L5 (define (x : number) 5) (define (y : boolean) #t) y)]. *)
Lemma typeOfSequence_new_names_witness :
  typeOfSequence [ DefineExp (makeVarDecl "x" NumTExp) (NumExp 5);
                   DefineExp (makeVarDecl "y" BoolTExp) (BoolExp true);
                   VarRef "y" ] makeEmptyTEnv =
  sequenceSpec [ DefineExp (makeVarDecl "x" NumTExp) (NumExp 5);
                 DefineExp (makeVarDecl "y" BoolTExp) (BoolExp true);
                 VarRef "y" ] makeEmptyTEnv.
Proof.
  apply typeOfSequence_new_names; reflexivity.
Defined.

(* ================================================================= *)
(** ** How the forms compose *)

(** X18: a let is typed as the application of a procedure to its bound
    values: with [t] the return type written on the procedure, the let of
    the bindings over a body has type [t] exactly when the procedure of the
    declared variables and that body, applied to the values, has. *)
Theorem typeofLet_as_application : forall bindings body tenv t,
  typeofExp (LetExp bindings body) tenv = Ok t <->
  typeofExp (AppExp (ProcExp (map (fun b => fst b) bindings) body t)
                    (map (fun b => snd b) bindings)) tenv = Ok t.
Proof.
  intros bindings body tenv t.
  rewrite typeofLet_Ok.
  rewrite (typeofApp_generic
             (ProcExp (map (fun b => fst b) bindings) body t)
             (map (fun b => snd b) bindings) tenv eq_refl).
  rewrite typeofAppGeneric_Ok.
  assert (Hall : forall bs : list (VarDecl * Exp),
    Forall (fun b => typeofExp (snd b) tenv = Ok (texp (fst b))) bs <->
    Forall2 (fun rand trand => typeofExp rand tenv = Ok trand)
            (map (fun b => snd b) bs) (map (fun b => texp (fst b)) bs)).
  { induction bs as [|b bs IH]; simpl.
    - split; constructor.
    - split; intros H; inversion H; subst; constructor; auto; apply IH; auto. }
  split.
  - intros [Hbs Hbody]. exists (map (fun b => texp (fst b)) bindings).
    split; [|split].
    + apply typeofProc_Ok. rewrite !map_map. split; [exact Hbody | reflexivity].
    + rewrite !length_map. reflexivity.
    + apply Hall. exact Hbs.
  - intros [ps [Hproc [_ Hrands]]].
    apply typeofProc_Ok in Hproc. rewrite !map_map in Hproc.
    destruct Hproc as [Hbody E]. inversion E; subst ps.
    split; [apply Hall; exact Hrands | exact Hbody].
Qed.

Lemma typeofLet_as_application_witness :
  typeofExp (AppExp (ProcExp [makeVarDecl "x" NumTExp]
                             [AppExp (PrimOp "+") [VarRef "x"; NumExp 1]]
                             NumTExp)
                    [NumExp 2]) makeEmptyTEnv = Ok NumTExp.
Proof.
  apply (proj1 (typeofLet_as_application
                  [(makeVarDecl "x" NumTExp, NumExp 2)]
                  [AppExp (PrimOp "+") [VarRef "x"; NumExp 1]]
                  makeEmptyTEnv NumTExp)).
  reflexivity.
Defined.

(** X19: the binding of a let is seen in its body only: the body resolves
    the bound name to its declared type whatever the environment says of
    that name, and a form that follows the let in a sequence resolves the
    name in the environment of the sequence. *)
Theorem typeofLet_shadowing : forall vd val env t,
  (typeofExp (LetExp [(vd, val)] [VarRef (var vd)]) env = Ok t <->
   typeofExp val env = Ok (texp vd) /\ t = texp vd) /\
  (typeOfSequence [LetExp [(vd, val)] [VarRef (var vd)]; VarRef (var vd)] env
   = Ok t <->
   typeofExp val env = Ok (texp vd) /\ applyTEnv env (var vd) = Ok t).
Proof.
  intros vd val env t.
  assert (Hlet : forall t',
    typeofExp (LetExp [(vd, val)] [VarRef (var vd)]) env = Ok t' <->
    typeofExp val env = Ok (texp vd) /\ t' = texp vd).
  { intros t'. rewrite typeofLet_Ok. cbn [map fst snd].
    assert (Hbody : typeofExps [VarRef (var vd)]
                      (makeExtendTEnv [var vd] [texp vd] env) = Ok (texp vd)).
    { cbn. rewrite String.eqb_refl. reflexivity. }
    rewrite Hbody. split.
    - intros [Hb E]. inversion Hb; subst. inversion E. auto.
    - intros [Hval ->]. split; [repeat constructor; exact Hval | reflexivity]. }
  split; [apply Hlet|].
  rewrite typeOfSequence_discard by (reflexivity || discriminate).
  rewrite typeOfSequence_last by reflexivity. cbn [typeofExp]. split.
  - intros H. apply bind_Ok_inv in H. destruct H as [t0 [H0 H]].
    apply Hlet in H0. destruct H0 as [Hval _]. auto.
  - intros [Hval Hx].
    assert (H0 : typeofExp (LetExp [(vd, val)] [VarRef (var vd)]) env =
                 Ok (texp vd)) by (apply Hlet; auto).
    cbn [typeofExp] in H0. rewrite H0. exact Hx.
Qed.

(** [(let (((x : number) 1)) x)] followed by [x] where [x] is a boolean. *)
Lemma typeofLet_shadowing_witness :
  typeOfSequence [LetExp [(makeVarDecl "x" NumTExp, NumExp 1)] [VarRef "x"];
                  VarRef "x"]
                 (ExtendTEnv ["x"] [BoolTExp] EmptyTEnv) = Ok BoolTExp.
Proof.
  apply (proj2 (typeofLet_shadowing (makeVarDecl "x" NumTExp) (NumExp 1)
                  (ExtendTEnv ["x"] [BoolTExp] EmptyTEnv) BoolTExp)).
  split; reflexivity.
Defined.

(** X20: a program of a define followed by one expression, where the
    environment is terminal or does not resolve the defined name while the
    declared type does not contain that name as a type variable, has a type
    exactly when the let of that binding over that expression has it. *)
Theorem typeOfSequence_define_as_let : forall vd val form env t,
  isDefineExp form = false ->
  isEmptyTEnv env ||
  (negb (isContainedTvar (var vd) (texp vd)) &&
   isFailure (applyTEnv env (var vd))) = true ->
  (typeOfSequence [DefineExp vd val; form] env = Ok t <->
   typeofExp (LetExp [(vd, val)] [form]) env = Ok t).
Proof.
  intros vd val form env t Hform Hfresh.
  rewrite typeOfSequence_define, typeofDefineExps_eq.
  rewrite (combineEnvs_fresh _ _ _ Hfresh). cbn [bind].
  rewrite typeOfSequence_last by exact Hform.
  rewrite typeofLet_Ok. cbn [map fst snd]. split.
  - intros H. apply bind_Ok_inv in H. destruct H as [c [Hc H]].
    apply bind_Ok_inv in Hc. destruct Hc as [valTE [Hval Hchk]].
    apply checkEqualType_Ok in Hchk. destruct Hchk as [<- _].
    split; [repeat constructor; exact Hval | exact H].
  - intros [Hb Hbody]. inversion Hb as [|? ? Hval _]; subst.
    cbn [fst snd] in Hval. rewrite Hval. cbn [bind].
    rewrite checkEqualType_same. exact Hbody.
Qed.

Lemma typeOfSequence_define_as_let_witness :
  typeofExp (LetExp [(makeVarDecl "x" NumTExp, NumExp 5)]
                    [AppExp (PrimOp "+") [VarRef "x"; NumExp 1]])
            makeEmptyTEnv = Ok NumTExp.
Proof.
  apply (proj1 (typeOfSequence_define_as_let (makeVarDecl "x" NumTExp)
                  (NumExp 5) (AppExp (PrimOp "+") [VarRef "x"; NumExp 1])
                  makeEmptyTEnv NumTExp eq_refl eq_refl)).
  reflexivity.
Defined.
